(** * PDF-Crawler: the crawl orchestration engine

    A shallow embedding of [pdf_crawler/crawler.py], [fetchers.py],
    [storage.py], [utils.py] and [models.py], and the properties of the
    fetch strategy selector, the politeness gate, the extraction functions,
    the document registry, the storage and the frontier scheduler.

    Conventions.
    - A Python [str] is a [string] of characters below 256; its truth value
      is [Py.truthy].
    - The tree that [BeautifulSoup(content, "html.parser")] builds is the
      [list node] held in the [content] field of a [FetchResult]: parsing is
      the library's, the traversals of the tree are the program's.
    - A function that may raise returns an [option], [None] being the
      exception.  The functions of [urllib.parse] raise [ValueError] on a
      malformed bracketed host; the crawler has no handler for it, so it
      ends the coroutine that called them.  [urllib.parse.urljoin] is a
      parameter of the development ([Variable urljoin]), of type
      [string -> string -> option string]; [urlparse] and [urldefrag] are
      written out, and so is a model of [urljoin], [Url.urljoin], which the
      examples use.
    - A Python [dict] whose insertion order is observable
      ([detected_pdfs], [pdfs], [downloaded]) is an association list with
      the operations the program uses; the robots cache is a [gmap], the
      visited set a [gset].
    - Calls that leave the process (robots.txt, page fetches, downloads, the
      file system) are answered by an environment [Env]; each call is
      recorded in the session's event log, newest first, and the answer may
      depend on that log, so that a call repeated later may be answered
      differently.  An answer [None] is an exception of a class the caller
      handles.
    - [asyncio] runs one coroutine at a time and switches at [await] only.
      A crawl is a sequence of moves, each the code between two awaits; the
      states a crawl can be in are those reachable by any sequence of moves
      ([reachable]), and [run] follows one such sequence.  An exception that
      leaves [_process] ends its task and nothing else: [run] never asks a
      task for its result. *)

From Stdlib Require Import ZArith String Ascii List Bool Lia.
From stdpp Require Import base option list gmap strings pretty.

Import ListNotations.
Local Open Scope Z_scope.

(** ** Python string operations used by the crawler *)

Module Py.

(** [bool(s)] for a [str]. *)
Definition truthy (s : string) : bool :=
  match s with EmptyString => false | String _ _ => true end.

(** [len(s)]. *)
Definition len (s : string) : Z := Z.of_nat (String.length s).

(** [s.startswith(p)]. *)
Definition startswith (s p : string) : bool := String.prefix p s.

(** [s.endswith(p)]. *)
Definition endswith (s p : string) : bool :=
  String.prefix (String.rev p) (String.rev s).

(** [c.lower()] for a character below 256: the capital letters of ASCII
    and of Latin-1. *)
Definition lower_ascii (c : ascii) : ascii :=
  let n := nat_of_ascii c in
  if (((65 <=? n) && (n <=? 90)) || ((192 <=? n) && (n <=? 214))
      || ((216 <=? n) && (n <=? 222)))%nat
  then ascii_of_nat (n + 32) else c.

(** [s.lower()]. *)
Fixpoint lower (s : string) : string :=
  match s with
  | EmptyString => EmptyString
  | String c s' => String (lower_ascii c) (lower s')
  end.

(** The characters [str.strip()] removes (code points below 256). *)
Definition isspace (c : ascii) : bool :=
  let n := nat_of_ascii c in
  (((9 <=? n) && (n <=? 13)) || ((28 <=? n) && (n <=? 32))
   || (n =? 133) || (n =? 160))%nat.

Fixpoint lstrip (s : string) : string :=
  match s with
  | EmptyString => EmptyString
  | String c s' => if isspace c then lstrip s' else s
  end.

(** [s.strip()]. *)
Definition strip (s : string) : string :=
  String.rev (lstrip (String.rev (lstrip s))).

(** [s[:n]]. *)
Fixpoint take (n : nat) (s : string) : string :=
  match n, s with
  | O, _ => EmptyString
  | _, EmptyString => EmptyString
  | S n', String c s' => String c (take n' s')
  end.

(** [s[n:]]. *)
Fixpoint drop (n : nat) (s : string) : string :=
  match n, s with
  | O, _ => s
  | _, EmptyString => EmptyString
  | S n', String _ s' => drop n' s'
  end.

(** [sep.join(l)]. *)
Fixpoint join (sep : string) (l : list string) : string :=
  match l with
  | [] => EmptyString
  | [x] => x
  | x :: l' => x +:+ sep +:+ join sep l'
  end.

(** [c in s] for a one-character [c]. *)
Fixpoint contains (c : ascii) (s : string) : bool :=
  match s with
  | EmptyString => false
  | String c' s' => if Ascii.eqb c c' then true else contains c s'
  end.

(** The part of [s] before the first [c] ([s.split(c, 1)[0]]). *)
Fixpoint before (c : ascii) (s : string) : string :=
  match s with
  | EmptyString => EmptyString
  | String c' s' => if Ascii.eqb c c' then EmptyString else String c' (before c s')
  end.

(** The part of [s] before the first of the characters of [cs]. *)
Fixpoint before_any (cs : string) (s : string) : string :=
  match s with
  | EmptyString => EmptyString
  | String c' s' => if contains c' cs then EmptyString else String c' (before_any cs s')
  end.

(** What is left of [s] from the first of the characters of [cs] on. *)
Fixpoint from_any (cs : string) (s : string) : string :=
  match s with
  | EmptyString => EmptyString
  | String c s' => if contains c cs then s else from_any cs s'
  end.

(** The part of [s] after the first [c], when there is one. *)
Fixpoint after (c : ascii) (s : string) : option string :=
  match s with
  | EmptyString => None
  | String c' s' => if Ascii.eqb c c' then Some s' else after c s'
  end.

(** The part of [s] after the first [sub], when there is one
    ([s.split(sub, 1)[1]]). *)
Fixpoint after_sub (sub s : string) : option string :=
  if String.prefix sub s then Some (drop (String.length sub) s)
  else match s with
       | EmptyString => None
       | String _ s' => after_sub sub s'
       end.

(** [s.replace(sub, "")] for a [sub] that is not empty: [skip] characters
    of an occurrence are still to be dropped. *)
Fixpoint remove_from (sub : string) (skip : nat) (s : string) : string :=
  match s with
  | EmptyString => EmptyString
  | String c s' =>
      match skip with
      | S k => remove_from sub k s'
      | O =>
          if String.prefix sub s
          then remove_from sub (String.length sub - 1) s'
          else String c (remove_from sub 0 s')
      end
  end.

Definition remove (sub s : string) : string := remove_from sub 0 s.

(** The part of [s] after the last [c] ([s.rsplit(c, 1)[-1]]). *)
Definition after_last (c : ascii) (s : string) : string :=
  String.rev (before c (String.rev s)).

(** [s.split(c)] for a one-character [c]. *)
Fixpoint split (c : ascii) (s : string) : list string :=
  match s with
  | EmptyString => [EmptyString]
  | String c' s' =>
      match split c s' with
      | seg :: segs =>
          if Ascii.eqb c c' then EmptyString :: seg :: segs
          else String c' seg :: segs
      | [] => [String c' EmptyString]
      end
  end.

(** ** Insertion-ordered [dict] with [str] keys *)

Definition dict (V : Type) := list (string * V).

(** [d.get(k)] / [d[k]]. *)
Fixpoint get {V} (d : dict V) (k : string) : option V :=
  match d with
  | [] => None
  | (k', v) :: d' => if String.eqb k k' then Some v else get d' k
  end.

(** [k in d]. *)
Definition mem {V} (d : dict V) (k : string) : bool :=
  match get d k with Some _ => true | None => false end.

(** [d[k] = v]: a present key keeps its position, a new one goes last. *)
Fixpoint set {V} (d : dict V) (k : string) (v : V) : dict V :=
  match d with
  | [] => [(k, v)]
  | (k', v') :: d' =>
      if String.eqb k k' then (k', v) :: d' else (k', v') :: set d' k v
  end.

(** [d.setdefault(k, v)], for its effect on [d]. *)
Definition setdefault {V} (d : dict V) (k : string) (v : V) : dict V :=
  if mem d k then d else set d k v.

(** [d.keys()], [d.values()], [d.items()]. *)
Definition keys {V} (d : dict V) : list string := map fst d.
Definition values {V} (d : dict V) : list V := map snd d.

End Py.

(** ** [urllib.parse]

    [urlsplit], [urlparse], [urlunparse], [urldefrag] and [urljoin] as
    CPython 3.11 defines them.  A function that may raise [ValueError]
    returns an [option]: [None] is the exception.  [urlsplit] raises on a
    netloc whose brackets do not match or do not hold an IPv6 or IPvFuture
    address; its other test, [_checknetloc], never raises on characters
    below 256, none of which normalizes to one of [/?#@:]. *)

Module Url.

Definition is_alpha (c : ascii) : bool :=
  let n := nat_of_ascii c in
  (((65 <=? n) && (n <=? 90)) || ((97 <=? n) && (n <=? 122)))%nat.

Definition is_digit (c : ascii) : bool :=
  let n := nat_of_ascii c in ((48 <=? n) && (n <=? 57))%nat.

(** [scheme_chars]: letters, digits, [+], [-] and [.]. *)
Definition is_scheme_char (c : ascii) : bool :=
  is_alpha c || is_digit c || Py.contains c "+-.".

Fixpoint all_scheme_chars (s : string) : bool :=
  match s with
  | EmptyString => true
  | String c s' => is_scheme_char c && all_scheme_chars s'
  end.

Definition uses_relative : list string :=
  [""; "ftp"; "http"; "gopher"; "nntp"; "imap"; "wais"; "file"; "https";
   "shttp"; "mms"; "prospero"; "rtsp"; "rtspu"; "sftp"; "svn"; "svn+ssh";
   "ws"; "wss"].

Definition uses_netloc : list string :=
  [""; "ftp"; "http"; "gopher"; "nntp"; "telnet"; "imap"; "wais"; "file";
   "mms"; "https"; "shttp"; "snews"; "prospero"; "rtsp"; "rtspu"; "rsync";
   "svn"; "svn+ssh"; "sftp"; "nfs"; "git"; "git+ssh"; "ws"; "wss"].

Definition uses_params : list string :=
  [""; "ftp"; "hdl"; "prospero"; "http"; "imap"; "https"; "shttp"; "rtsp";
   "rtspu"; "sip"; "sips"; "mms"; "sftp"; "tel"].

Definition str_mem (s : string) (l : list string) : bool :=
  existsb (String.eqb s) l.

(** [url.lstrip(_WHATWG_C0_CONTROL_OR_SPACE)]: leading characters up to
    the space are dropped. *)
Fixpoint lstrip_c0 (s : string) : string :=
  match s with
  | EmptyString => EmptyString
  | String c s' => if (nat_of_ascii c <=? 32)%nat then lstrip_c0 s' else s
  end.

(** Tabs and line ends are removed wherever they are. *)
Fixpoint remove_unsafe (s : string) : string :=
  match s with
  | EmptyString => EmptyString
  | String c s' =>
      if Py.contains c (String "009" (String "013" (String "010" EmptyString)))
      then remove_unsafe s' else String c (remove_unsafe s')
  end.

(** A leading [scheme:] is split off when the text before the first colon
    starts with a letter and consists of scheme characters; the scheme is
    lower-cased. *)
Definition split_scheme (url : string) : option (string * string) :=
  match url, Py.after ":" url with
  | String c _, Some rest =>
      let pre := Py.before ":" url in
      if is_alpha c && all_scheme_chars pre then Some (Py.lower pre, rest)
      else None
  | _, _ => None
  end.

(** *** Bracketed hosts: [ipaddress.ip_address] as far as it accepts or
    rejects a text *)

Definition is_hex (c : ascii) : bool :=
  let n := nat_of_ascii c in
  (is_digit c || ((65 <=? n) && (n <=? 70)) || ((97 <=? n) && (n <=? 102)))%nat.

Fixpoint all_chars (f : ascii -> bool) (s : string) : bool :=
  match s with
  | EmptyString => true
  | String c s' => f c && all_chars f s'
  end.

(** [int(s, 10)] for a text of digits. *)
Definition decimal (s : string) : N :=
  (fix go (s : string) (acc : N) : N :=
     match s with
     | EmptyString => acc
     | String c s' => go s' (10 * acc + (N_of_ascii c - 48))%N
     end) s 0%N.

(** [IPv4Address._parse_octet] returns. *)
Definition valid_octet (octet_str : string) : bool :=
  Py.truthy octet_str
  && all_chars is_digit octet_str
  && (String.length octet_str <=? 3)%nat
  && negb (negb (String.eqb octet_str "0") && Py.startswith octet_str "0")
  && (decimal octet_str <=? 255)%N.

(** [IPv4Address(s)] returns. *)
Definition valid_ipv4 (addr_str : string) : bool :=
  negb (Py.contains "/" addr_str)
  && Py.truthy addr_str
  && (let octets := Py.split "." addr_str in
      (length octets =? 4)%nat && forallb valid_octet octets).

(** [IPv6Address._parse_hextet] returns; [int("", 16)] raises. *)
Definition valid_hextet (hextet_str : string) : bool :=
  all_chars is_hex hextet_str
  && (String.length hextet_str <=? 4)%nat
  && Py.truthy hextet_str.

(** The places [i] with [1 <= i < len(parts) - 1] where [parts[i]] is
    empty; [i] counts from [start]. *)
Fixpoint empty_inner (start : nat) (parts : list string) : list nat :=
  match parts with
  | [] | [_] => []
  | part :: rest =>
      (if Py.truthy part then [] else [start]) ++ empty_inner (S start) rest
  end.

(** [IPv6Address._ip_int_from_string] returns.  An IPv4 suffix is
    replaced by two hextets, whose values do not matter here. *)
Definition valid_ipv6_parts (ip_str : string) : bool :=
  Py.truthy ip_str
  && (let parts := Py.split ":" ip_str in
      (3 <=? length parts)%nat
      && match
           (if Py.contains "." (List.last parts EmptyString) then
              if valid_ipv4 (List.last parts EmptyString)
              then Some (removelast parts ++ ["0"; "0"]) else None
            else Some parts)
         with
         | None => false
         | Some parts =>
             (length parts <=? 9)%nat
             && match empty_inner 1 (List.tl parts) with
                | [] =>
                    (length parts =? 8)%nat
                    && Py.truthy (List.hd EmptyString parts)
                    && Py.truthy (List.last parts EmptyString)
                    && forallb valid_hextet parts
                | [skip_index] =>
                    let parts_hi := skip_index in
                    let parts_lo := (length parts - skip_index - 1)%nat in
                    let head_empty := negb (Py.truthy (List.hd EmptyString parts)) in
                    let last_empty := negb (Py.truthy (List.last parts EmptyString)) in
                    let parts_hi := if head_empty then (parts_hi - 1)%nat else parts_hi in
                    let parts_lo := if last_empty then (parts_lo - 1)%nat else parts_lo in
                    negb (head_empty && negb (parts_hi =? 0)%nat)
                    && negb (last_empty && negb (parts_lo =? 0)%nat)
                    && (1 <=? 8 - (parts_hi + parts_lo))%nat
                    && forallb valid_hextet (firstn parts_hi parts)
                    && forallb valid_hextet
                         (skipn (length parts - parts_lo) parts)
                | _ => false
                end
         end).

(** [IPv6Address(s)] returns: the scope id after a [%], if any, is not
    empty and has no [%]. *)
Definition valid_ipv6 (addr_str : string) : bool :=
  negb (Py.contains "/" addr_str)
  && match Py.after "%" addr_str with
     | None => valid_ipv6_parts addr_str
     | Some scope_id =>
         Py.truthy scope_id && negb (Py.contains "%" scope_id)
         && valid_ipv6_parts (Py.before "%" addr_str)
     end.

(** [re.match(r"\Av[a-fA-F0-9]+\..+\Z", hostname)] for a [hostname] that
    starts with [v]. *)
Fixpoint drop_hex (s : string) : string :=
  match s with
  | EmptyString => EmptyString
  | String c s' => if is_hex c then drop_hex s' else s
  end.

Definition valid_ipvfuture (hostname : string) : bool :=
  match hostname with
  | String _ (String h rest) =>
      is_hex h
      && match drop_hex rest with
         | String "." (String c tail) =>
             negb (Py.contains "010" (String c tail))
         | _ => false
         end
  | _ => false
  end.

(** [_check_bracketed_host(hostname)] returns. *)
Definition check_bracketed_host (hostname : string) : bool :=
  if Py.startswith hostname "v" then valid_ipvfuture hostname
  else if valid_ipv4 hostname then false
  else valid_ipv6 hostname.

(** [_check_bracketed_netloc(netloc)] returns. *)
Definition check_bracketed_netloc (netloc : string) : bool :=
  let hostname_and_port := Py.after_last "@" netloc in
  match Py.after "[" hostname_and_port with
  | Some bracketed =>
      let before_bracket := Py.before "[" hostname_and_port in
      let port := default EmptyString (Py.after "]" bracketed) in
      negb (Py.truthy before_bracket)
      && negb (Py.truthy port && negb (Py.startswith port ":"))
      && check_bracketed_host (Py.before "]" bracketed)
  | None => check_bracketed_host (Py.before ":" hostname_and_port)
  end.

(** The tests of [urlsplit] on the netloc pass. *)
Definition netloc_ok (netloc : string) : bool :=
  let opening := Py.contains "[" netloc in
  let closing := Py.contains "]" netloc in
  if (opening && negb closing) || (closing && negb opening) then false
  else if opening && closing then check_bracketed_netloc netloc
  else true.

Record parts : Type := mkParts {
  p_scheme : string;
  p_netloc : string;
  p_path : string;
  p_params : string;
  p_query : string;
  p_fragment : string
}.

(** [urlsplit(url, scheme)]; [p_params] is left empty. *)
Definition urlsplit (url default_scheme : string) : option parts :=
  let url := remove_unsafe (lstrip_c0 url) in
  let default_scheme :=
    remove_unsafe (String.rev (lstrip_c0 (String.rev (lstrip_c0 default_scheme)))) in
  let '(sch, rest) :=
    match split_scheme url with
    | Some (sch, rest) => (sch, rest)
    | None => (default_scheme, url)
    end in
  let '(net, rest) :=
    if Py.startswith rest "//"
    then (Py.before_any "/?#" (Py.drop 2 rest), Py.from_any "/?#" (Py.drop 2 rest))
    else (EmptyString, rest) in
  if negb (netloc_ok net) then None
  else
    let frag := default EmptyString (Py.after "#" rest) in
    let rest := Py.before "#" rest in
    let query := default EmptyString (Py.after "?" rest) in
    Some (mkParts sch net (Py.before "?" rest) EmptyString query frag).

(** [_splitparams(url)] for a [url] with a semicolon: the last segment is
    cut at its first semicolon, if it has one. *)
Definition splitparams (url : string) : string * string :=
  let reversed := String.rev url in
  let last := String.rev (Py.before "/" reversed) in
  let dir := String.rev (Py.from_any "/" reversed) in
  if Py.contains ";" last
  then (dir +:+ Py.before ";" last, default EmptyString (Py.after ";" last))
  else (url, EmptyString).

(** [urlparse(url, scheme)]. *)
Definition urlparse (url default_scheme : string) : option parts :=
  p ← urlsplit url default_scheme;
  if str_mem (p_scheme p) uses_params && Py.contains ";" (p_path p) then
    let '(path, params) := splitparams (p_path p) in
    Some (mkParts (p_scheme p) (p_netloc p) path params (p_query p)
            (p_fragment p))
  else Some p.

(** [urlparse(url).scheme] and [urlparse(url).netloc]. *)
Definition scheme (url : string) : option string :=
  p_scheme <$> urlparse url EmptyString.

Definition netloc (url : string) : option string :=
  p_netloc <$> urlparse url EmptyString.

(** [urlunparse]. *)
Definition urlunparse (p : parts) : string :=
  let url :=
    if Py.truthy (p_params p) then p_path p +:+ ";" +:+ p_params p else p_path p in
  let url :=
    if Py.truthy (p_netloc p)
       || (Py.truthy (p_scheme p) && str_mem (p_scheme p) uses_netloc
           && negb (Py.startswith url "//"))
    then "//" +:+ p_netloc p
         +:+ (if Py.truthy url && negb (Py.startswith url "/")
              then "/" +:+ url else url)
    else url in
  let url := if Py.truthy (p_scheme p) then p_scheme p +:+ ":" +:+ url else url in
  let url := if Py.truthy (p_query p) then url +:+ "?" +:+ p_query p else url in
  if Py.truthy (p_fragment p) then url +:+ "#" +:+ p_fragment p else url.

(** [urldefrag(url)[0]]: a URL with a [#] is parsed and put together again
    without its fragment. *)
Definition urldefrag (url : string) : option string :=
  if Py.contains "#" url then
    p ← urlparse url EmptyString;
    Some (urlunparse
            (mkParts (p_scheme p) (p_netloc p) (p_path p) (p_params p)
               (p_query p) EmptyString))
  else Some url.

(** [segments[1:-1] = filter(None, segments[1:-1])]. *)
Definition drop_empty_inner (segments : list string) : list string :=
  match segments with
  | first :: (_ :: _) as rest =>
      first :: List.filter Py.truthy (removelast rest) ++ [List.last rest EmptyString]
  | _ => segments
  end.

(** The loop over [segments]; [resolved] is kept in reverse. *)
Fixpoint resolve (segments resolved : list string) : list string :=
  match segments with
  | [] => rev resolved
  | seg :: segs =>
      if String.eqb seg ".." then resolve segs (List.tl resolved)
      else if String.eqb seg "." then resolve segs resolved
      else resolve segs (seg :: resolved)
  end.

(** A model of [urljoin(base, url)].  The crawler's functions take
    [urljoin] as a parameter; the examples set it to this model. *)
Definition urljoin (base url : string) : option string :=
  if negb (Py.truthy base) then Some url
  else if negb (Py.truthy url) then Some base
  else
    b ← urlparse base EmptyString;
    u ← urlparse url (p_scheme b);
    Some
      (if negb (String.eqb (p_scheme u) (p_scheme b))
          || negb (str_mem (p_scheme u) uses_relative)
       then url
       else if str_mem (p_scheme u) uses_netloc && Py.truthy (p_netloc u)
       then urlunparse u
       else
         let net := if str_mem (p_scheme u) uses_netloc then p_netloc b else p_netloc u in
         if negb (Py.truthy (p_path u)) && negb (Py.truthy (p_params u)) then
           urlunparse
             (mkParts (p_scheme u) net (p_path b) (p_params b)
                (if Py.truthy (p_query u) then p_query u else p_query b)
                (p_fragment u))
         else
           let base_parts :=
             let bp := Py.split "/" (p_path b) in
             if Py.truthy (List.last bp EmptyString) then removelast bp else bp in
           let segments :=
             if Py.startswith (p_path u) "/" then Py.split "/" (p_path u)
             else drop_empty_inner (base_parts ++ Py.split "/" (p_path u)) in
           let resolved := resolve segments [] in
           let resolved :=
             if str_mem (List.last segments EmptyString) ["."; ".."]
             then resolved ++ [EmptyString] else resolved in
           let path := Py.join "/" resolved in
           urlunparse
             (mkParts (p_scheme u) net (if Py.truthy path then path else "/")
                (p_params u) (p_query u) (p_fragment u))).

End Url.


(** ** The document tree of [html.parser]

    A node is a string or a tag with its attributes and contents.  A string
    is [visible] when [get_text] of an ordinary tag counts it: the text of a
    page, as opposed to comments and to the data of [script] and [style]
    elements. *)

#[warnings="-register-all"]
Inductive node : Type :=
| NavigableString (visible : bool) (text : string)
| Tag (name : string) (attrs : Py.dict string) (contents : list node).

(** A tag as the program holds it once [find_all] has returned it: with the
    contents of its parent ([tag.find_parent()]), which for a top-level tag
    is the document itself. *)
Record tag : Type := mkTag {
  tag_name : string;
  tag_attrs : Py.dict string;
  tag_contents : list node;
  tag_parent : option (list node)
}.

Module Soup.

(** [tag.descendants] restricted to tags, in document order. *)
Fixpoint tags_of (parent : list node) (n : node) : list tag :=
  match n with
  | NavigableString _ _ => []
  | Tag nm ats cs =>
      mkTag nm ats cs (Some parent)
      :: (fix go (l : list node) : list tag :=
            match l with
            | [] => []
            | c :: l' => tags_of cs c ++ go l'
            end) cs
  end.

Definition tags (soup : list node) : list tag :=
  flat_map (tags_of soup) soup.

(** The visible strings below a node, in document order. *)
Fixpoint strings_of (n : node) : list string :=
  match n with
  | NavigableString v s => if v then [s] else []
  | Tag _ _ cs =>
      (fix go (l : list node) : list string :=
         match l with
         | [] => []
         | c :: l' => strings_of c ++ go l'
         end) cs
  end.

(** [get_text(sep, strip=True)]: every string is stripped, the empty ones
    are dropped, the rest joined by [sep]. *)
Definition get_text (sep : string) (cs : list node) : string :=
  Py.join sep
    (List.filter Py.truthy (map Py.strip (flat_map strings_of cs))).

(** [tag.get(k)]. *)
Definition get (t : tag) (k : string) : option string :=
  Py.get (tag_attrs t) k.

(** Truth value of [tag.get(k)]: present and not empty. *)
Definition get_truthy (t : tag) (k : string) : bool :=
  match get t k with Some v => Py.truthy v | None => false end.

(** [k in tag.attrs], which is what [attrs={k: True}] and [k=True] test. *)
Definition has_attr (t : tag) (k : string) : bool :=
  match get t k with Some _ => true | None => false end.

(** [tag.name in names]. *)
Definition name_in (t : tag) (names : list string) : bool :=
  existsb (String.eqb (tag_name t)) names.

(** [soup.find_all(f)] for a predicate [f] on tags. *)
Definition find_all (f : tag -> bool) (soup : list node) : list tag :=
  List.filter f (tags soup).

(** Truth value of [soup.find(...)]: some tag matches. *)
Definition find (f : tag -> bool) (soup : list node) : bool :=
  existsb f (tags soup).

End Soup.

(** ** [fetchers.FetchResult] *)

Record FetchResult : Type := mkFetchResult {
  fr_url : string;
  content : list node;
  final_url : string;
  from_playwright : bool;
  detected_pdfs : option (Py.dict string);
  content_type : option string
}.

(** Truth value of [result.detected_pdfs]: neither [None] nor empty. *)
Definition detected_pdfs_truthy (result : FetchResult) : bool :=
  match detected_pdfs result with
  | Some (_ :: _) => true
  | _ => false
  end.

(** ** The fetch strategy selector *)

(** The function given to [find_all] in [_requires_playwright]:
    [tag.name in {"a", "iframe", "embed"} and tag.get("href") or tag.get("src")].
    Python reads it as [(... and ...) or ...]. *)
Definition static_reference (t : tag) : bool :=
  (Soup.name_in t ["a"; "iframe"; "embed"] && Soup.get_truthy t "href")
  || Soup.get_truthy t "src".

Definition _requires_playwright (result : FetchResult) : bool :=
  if detected_pdfs_truthy result then false
  else
    let soup := content result in
    match Soup.find_all static_reference soup with
    | _ :: _ => false
    | [] =>
        let script_tags :=
          Soup.find_all (fun t => String.eqb (tag_name t) "script") soup in
        if (Z.of_nat (length script_tags) >? 10)
           && (Py.len (Soup.get_text "" soup) <? 200)
        then true
        else if Soup.find (fun t => Soup.has_attr t "data-reactroot") soup
                || Soup.find (fun t => Soup.has_attr t "data-reactid") soup
        then true
        else if Soup.find (fun t => Soup.has_attr t "ng-app") soup
                || Soup.find
                     (fun t => match Soup.get t "id" with
                               | Some v => String.eqb v "app"
                               | None => false
                               end) soup
        then true
        else false
    end.


(** ** Configuration, documents, tasks *)

(** A [pathlib.Path], as its parts. *)
Definition Path : Type := list string.

(** [path / name] for a [name] without [/]: an empty name and [.] add
    nothing. *)
Definition path_div (path : Path) (name : string) : Path :=
  if String.eqb name EmptyString || String.eqb name "." then path
  else path ++ [name].

(** [path.with_name(name)] and [path.parent], for a path that has a name. *)
Definition with_name (path : Path) (name : string) : Path :=
  removelast path ++ [name].

Definition parent (path : Path) : Path := removelast path.

(** [config.CrawlConfig], without [auth], which the orchestration does not
    read. *)
Record CrawlConfig : Type := mkCrawlConfig {
  cfg_url : string;
  output_dir : Path;
  max_depth : Z;
  concurrency : Z;
  timeout : Z;
  respect_robots_txt : bool;
  retries : Z
}.

(** [models.PDFDocument]. *)
Record PDFDocument : Type := mkPDFDocument {
  source_page : string;
  doc_url : string;
  filename : Path;
  title : option string;
  context : option string;
  doc_content_type : option string;
  size_bytes : option Z
}.

(** [crawler.PageTask]. *)
Record PageTask : Type := mkPageTask {
  task_url : string;
  depth : Z
}.

(** ** [utils.py] *)

(** [\w] and [\s] of [re] on characters below 256. *)
Definition is_word (c : ascii) : bool :=
  let n := nat_of_ascii c in
  (((48 <=? n) && (n <=? 57)) || ((65 <=? n) && (n <=? 90)) || (n =? 95)
   || ((97 <=? n) && (n <=? 122)) || (n =? 170) || ((178 <=? n) && (n <=? 179))
   || (n =? 181) || ((185 <=? n) && (n <=? 186)) || ((188 <=? n) && (n <=? 190))
   || ((192 <=? n) && (n <=? 214)) || ((216 <=? n) && (n <=? 246))
   || ((248 <=? n) && (n <=? 255)))%nat.

(** [[\s/]]. *)
Definition is_separator (c : ascii) : bool :=
  Py.isspace c || Ascii.eqb c "/".

(** [re.sub(r"[\s/]+", rep, value)]: [rep] is written where a run of
    separators ends. *)
Fixpoint sub_runs (rep : ascii) (value : string) : string :=
  match value with
  | EmptyString => EmptyString
  | String c rest =>
      if is_separator c then
        match rest with
        | String c' _ =>
            if is_separator c' then sub_runs rep rest
            else String rep (sub_runs rep rest)
        | EmptyString => String rep EmptyString
        end
      else String c (sub_runs rep rest)
  end.

(** [[\w.-]]. *)
Definition is_safe (c : ascii) : bool :=
  is_word c || Ascii.eqb c "." || Ascii.eqb c "-".

(** [re.sub(r"[^\w.-]", "", value)]. *)
Fixpoint keep_safe (value : string) : string :=
  match value with
  | EmptyString => EmptyString
  | String c rest =>
      if is_safe c then String c (keep_safe rest) else keep_safe rest
  end.

(** [value.strip("-_.")]. *)
Definition is_edge (c : ascii) : bool := Py.contains c "-_.".

Fixpoint lstrip_edge (value : string) : string :=
  match value with
  | EmptyString => EmptyString
  | String c rest => if is_edge c then lstrip_edge rest else value
  end.

Definition strip_edge (value : string) : string :=
  String.rev (lstrip_edge (String.rev (lstrip_edge value))).

(** [slugify(value, allow_unicode)].  Patterns on [str] are Unicode
    patterns with or without [re.UNICODE], so the two branches differ by
    the character that replaces a run of separators. *)
Definition slugify (value : string) (allow_unicode : bool) : string :=
  if allow_unicode then strip_edge (keep_safe (sub_runs "_" value))
  else strip_edge (keep_safe (sub_runs "-" value)).

(** The loop of [safe_filename].  It ends when [candidate] is not in
    [existing]; [fuel] bounds the number of turns, and
    [safe_filename_fresh] shows that the length of [existing] is enough. *)
Fixpoint safe_filename_loop (fuel : nat) (base : string)
    (existing : list string) (index : nat) (candidate : string) : string :=
  if Url.str_mem candidate existing then
    match fuel with
    | O => candidate
    | S fuel' =>
        safe_filename_loop fuel' base existing (S index)
          (base +:+ "-" +:+ pretty (S index))
    end
  else candidate.

(** [safe_filename(base, existing, default, allow_unicode)]. *)
Definition safe_filename (base : string) (existing : list string)
    (default : string) (allow_unicode : bool) : string :=
  let base :=
    if Py.truthy base then slugify base allow_unicode
    else slugify default allow_unicode in
  safe_filename_loop (length existing) base existing 1 base.

(** ** The environment *)

(** A parsed robots.txt ([urllib.robotparser.RobotFileParser] after a
    successful [read()]).  [can_fetch] parses the URL it is given and
    raises [ValueError] as [urlparse] does. *)
Record RobotFileParser : Type := mkRobot {
  can_fetch : string -> string -> option bool
}.

(** What the static fetcher reads off a [requests] response that passed
    [raise_for_status()]. *)
Record Response : Type := mkResponse {
  resp_url : string;
  resp_content_type : option string;
  resp_text : list node
}.

(** What the rendering fetcher reads off the page after [goto]. *)
Record RenderedPage : Type := mkRenderedPage {
  page_content : list node;
  page_url : string;
  pdf_urls : Py.dict string
}.

(** How [with target.open("wb") as fh: ...] in [save_pdf] ends: [open]
    raises and there is no file; the file is there and writing the body
    raises; the body is written. *)
Inductive write_result : Type :=
| OpenFailed
| WriteFailed
| Written.

(** The calls of [PDFStorage]. *)
Inductive storage_call : Type :=
| Download (url : string)
| MakeDir (path : Path)
| Glob (dir : Path)
| FileWrite (url : string) (target : Path) (outcome : write_result)
| Stat (path : Path)
| ReadTitle (path : Path)
| Exists (path : Path)
| Rename (src dst : Path).

(** Every call that leaves the process, oldest last in the log. *)
Inductive event : Type :=
| RobotsRead (base : string)
| HttpGet (url : string)
| PlaywrightGoto (url : string)
| Storage (call : storage_call)
| CreateTask (task : PageTask).

(** The environment answers each call from the log so far; [None] is a
    raised exception.
    - [robots_read]: [rp.read()] for the robots.txt at the given URL;
    - [session_get]: [session.get(url)] and [raise_for_status()];
    - [page_goto]: [page.goto(url)] and [page.content()];
    - [pdf_get]: [requests.get(url, stream=True)] and [raise_for_status()];
    - [fs_mkdir]: [path.mkdir(parents=True, exist_ok=True)];
    - [fs_glob]: the stems of [dir.glob("*.pdf")];
    - [fs_write]: opening the target and writing the body to it;
    - [fs_stat]: [path.stat().st_size];
    - [pdf_title]: [PdfReader(path).metadata.title], [None] when there is
      no title or reading it raises;
    - [fs_exists]: [path.exists()];
    - [fs_rename]: [src.rename(dst)]. *)
Record Env : Type := mkEnv {
  robots_read : list event -> string -> option RobotFileParser;
  session_get : list event -> string -> option Response;
  page_goto : list event -> string -> option RenderedPage;
  pdf_get : list event -> string -> option unit;
  fs_mkdir : list event -> Path -> option unit;
  fs_glob : list event -> Path -> option (list string);
  fs_write : list event -> Path -> write_result;
  fs_stat : list event -> Path -> option Z;
  pdf_title : list event -> Path -> option string;
  fs_exists : list event -> Path -> option bool;
  fs_rename : list event -> Path -> Path -> option unit
}.

(** ** [fetchers.py] *)

(** [sub in s] for strings. *)
Fixpoint str_in (sub s : string) : bool :=
  if String.prefix sub s then true
  else match s with
       | EmptyString => false
       | String _ s' => str_in sub s'
       end.

Definition static_result (url : string) (response : Response) : FetchResult :=
  let content_type := Py.lower (default EmptyString (resp_content_type response)) in
  if str_in "application/pdf" content_type then
    mkFetchResult url [] (resp_url response) false
      (Some [(resp_url response, resp_url response)]) (Some content_type)
  else
    mkFetchResult url (resp_text response) (resp_url response) false
      None (Some content_type).

(** [StaticFetcher.fetch]: [attempts] is [retries + 1]. *)
Fixpoint StaticFetcher_fetch (env : Env) (attempts : nat) (log : list event)
    (url : string) : option FetchResult * list event :=
  match attempts with
  | O => (None, log)
  | S n =>
      match session_get env log url with
      | Some response => (Some (static_result url response), HttpGet url :: log)
      | None => StaticFetcher_fetch env n (HttpGet url :: log) url
      end
  end.

(** [PlaywrightFetcher.fetch]. *)
Definition PlaywrightFetcher_fetch (env : Env) (log : list event)
    (url : string) : option FetchResult * list event :=
  match page_goto env log url with
  | Some page =>
      (Some (mkFetchResult url (page_content page) (page_url page) true
               (match pdf_urls page with [] => None | d => Some d end)
               (Some "text/html")),
       PlaywrightGoto url :: log)
  | None => (None, PlaywrightGoto url :: log)
  end.
(** ** [storage.py]

    The functions of [PDFStorage] read and extend the log and may raise:
    an action takes the log and returns its result, [None] for an
    exception, with the log as the action left it. *)

Definition io (A : Type) : Type := list event -> option A * list event.

Definition ret {A} (a : A) : io A := fun log => (Some a, log).

Definition bind {A B} (m : io A) (k : A -> io B) : io B :=
  fun log =>
    match m log with
    | (Some a, log') => k a log'
    | (None, log') => (None, log')
    end.

(** A call answered by the environment. *)
Definition call {A} (c : storage_call) (answer : list event -> option A)
    : io A :=
  fun log => (answer log, Storage c :: log).

Declare Scope io_scope.
Delimit Scope io_scope with io.
Notation "x <- m ;; k" := (bind m (fun x => k))
  (at level 100, m at next level, right associativity) : io_scope.

Local Open Scope io_scope.

(** [utils.ensure_directory]. *)
Definition ensure_directory (env : Env) (path : Path) : io unit :=
  call (MakeDir path) (fun log => fs_mkdir env log path).

(** [{f.stem for f in dir.glob("*.pdf")}]. *)
Definition existing_stems (env : Env) (dir : Path) : io (list string) :=
  call (Glob dir) (fun log => fs_glob env log dir).

(** [utils.extract_pdf_title]: whatever reading the file raises is caught. *)
Definition extract_pdf_title (env : Env) (path : Path) : io (option string) :=
  fun log =>
    (Some match pdf_title env log path with
          | Some t => if Py.truthy t then Some (slugify t true) else None
          | None => None
          end,
     Storage (ReadTitle path) :: log).

(** [PDFStorage._domain_directory]. *)
Definition _domain_directory (env : Env) (base_dir : Path) (url : string)
    : io Path :=
  let domain := Py.before "/" (default url (Py.after_sub "//" url)) in
  let path := path_div base_dir domain in
  _ <- ensure_directory env path ;;
  ret path.

(** The [with] block of [save_pdf]. *)
Definition write_body (env : Env) (url : string) (target : Path) : io unit :=
  fun log =>
    let outcome := fs_write env log target in
    (match outcome with Written => Some tt | _ => None end,
     Storage (FileWrite url target outcome) :: log).

(** [PDFStorage.save_pdf]. *)
Definition save_pdf (env : Env) (base_dir : Path) (url source_page : string)
    : io Path :=
  _ <- call (Download url) (fun log => pdf_get env log url) ;;
  let filename_hint := Py.remove ".pdf" (Py.after_last "/" url) in
  domain_dir <- _domain_directory env base_dir source_page ;;
  existing_names <- existing_stems env domain_dir ;;
  let name :=
    safe_filename (if Py.truthy filename_hint then filename_hint else "document")
      existing_names "document" false in
  let target := path_div domain_dir (name +:+ ".pdf") in
  _ <- write_body env url target ;;
  ret target.

(** Truth value of an [Optional[str]]. *)
Definition title_truthy (title : option string) : bool :=
  match title with Some t => Py.truthy t | None => false end.

(** [PDFStorage.build_document]. *)
Definition build_document (env : Env) (base_dir : Path)
    (url source_page : string) (ctx : option string) : io PDFDocument :=
  saved_path <- save_pdf env base_dir url source_page ;;
  size <- call (Stat saved_path) (fun log => fs_stat env log saved_path) ;;
  title <- extract_pdf_title env saved_path ;;
  saved_path <-
    (if title_truthy title then
       existing_names <- existing_stems env (parent saved_path) ;;
       let proposed_name :=
         safe_filename (default EmptyString title) existing_names "document" true in
       let proposed := with_name saved_path (proposed_name +:+ ".pdf") in
       if bool_decide (proposed = saved_path) then ret saved_path
       else
         found <- call (Exists proposed) (fun log => fs_exists env log proposed) ;;
         if found : bool then ret saved_path
         else
           _ <- call (Rename saved_path proposed)
                  (fun log => fs_rename env log saved_path proposed) ;;
           ret proposed
     else ret saved_path) ;;
  ret (mkPDFDocument source_page url saved_path title ctx None (Some size)).

Local Close Scope io_scope.

(** ** [crawler.CrawlSession] *)

Record CrawlSession : Type := mkCrawlSession {
  config : CrawlConfig;
  playwright_fetcher : bool;
  visited : gset string;
  downloaded : Py.dict PDFDocument;
  allowed_domains : gset string;
  robots_cache : gmap string (option RobotFileParser);
  events : list event
}.

(** [CrawlSession.__init__]: [PDFStorage(config.output_dir)] makes the
    directory, [urlparse(config.url)] may raise. *)
Definition CrawlSession_init (env : Env) (config : CrawlConfig)
    (playwright : bool) : option CrawlSession :=
  match ensure_directory env (output_dir config) [] with
  | (Some _, log) =>
      netloc ← Url.netloc (cfg_url config);
      Some (mkCrawlSession config playwright ∅ [] {[ netloc ]} ∅ log)
  | (None, _) => None
  end.

Definition record (e : event) (self : CrawlSession) : CrawlSession :=
  mkCrawlSession (config self) (playwright_fetcher self) (visited self)
    (downloaded self) (allowed_domains self) (robots_cache self)
    (e :: events self).

Definition with_events (log : list event) (self : CrawlSession) : CrawlSession :=
  mkCrawlSession (config self) (playwright_fetcher self) (visited self)
    (downloaded self) (allowed_domains self) (robots_cache self) log.

Definition with_visited (v : gset string) (self : CrawlSession) : CrawlSession :=
  mkCrawlSession (config self) (playwright_fetcher self) v
    (downloaded self) (allowed_domains self) (robots_cache self) (events self).

Definition with_downloaded (d : Py.dict PDFDocument) (self : CrawlSession)
    : CrawlSession :=
  mkCrawlSession (config self) (playwright_fetcher self) (visited self)
    d (allowed_domains self) (robots_cache self) (events self).

Definition with_robots_cache (c : gmap string (option RobotFileParser))
    (self : CrawlSession) : CrawlSession :=
  mkCrawlSession (config self) (playwright_fetcher self) (visited self)
    (downloaded self) (allowed_domains self) c (events self).

Definition user_agent : string := "UniversalPDFCrawler".
Definition network_label : string := "Detected via network request".

(** [f"{parsed.scheme}://{parsed.netloc}"] for [parsed = urlparse(url)]. *)
Definition origin (url : string) : option string :=
  parsed ← Url.urlparse url EmptyString;
  Some (Url.p_scheme parsed +:+ "://" +:+ Url.p_netloc parsed).

(** [a or b] on attribute values. *)
Definition py_or (a b : option string) : option string :=
  match a with
  | Some v => if Py.truthy v then a else b
  | None => b
  end.

(** How a generator ends: it is exhausted, or it raises. *)
Inductive ending : Type :=
| Exhausted
| Raised.

Section Crawler.

(** [urllib.parse.urljoin(base, url)]; [None] when it raises. *)
Variable urljoin : string -> string -> option string.

(** ** The helpers of [CrawlSession] *)

Definition _normalize (url : string) : option string := Url.urldefrag url.

Definition _is_same_domain (self : CrawlSession) (url : string) : option bool :=
  netloc ← Url.netloc url;
  Some (bool_decide (netloc ∈ allowed_domains self)).

(** *** The politeness gate *)

(** [rp.set_url(urljoin(base, "/robots.txt"))]: [set_url] parses the URL
    it is given. *)
Definition robots_url (base : string) : option string :=
  url ← urljoin base "/robots.txt";
  _ ← Url.urlparse url EmptyString;
  Some url.

(** [_is_allowed]: the answer, [None] when a [ValueError] leaves the
    function, and the session as the call leaves it.
    [robots_cache.get(base)] yields [None] for a missing key and for a key
    stored with the value [None] alike. *)
Definition _is_allowed (env : Env) (self : CrawlSession) (url : string)
    : option bool * CrawlSession :=
  if negb (respect_robots_txt (config self)) then (Some true, self)
  else
    match origin url with
    | None => (None, self)
    | Some base =>
        match default None (robots_cache self !! base) with
        | Some robot => (can_fetch robot user_agent url, self)
        | None =>
            match robots_url base with
            | None => (None, self)
            | Some target =>
                let self' := record (RobotsRead base) self in
                match robots_read env (events self) target with
                | None =>
                    (Some true,
                     with_robots_cache (<[base := None]> (robots_cache self)) self')
                | Some rp =>
                    (can_fetch rp user_agent url,
                     with_robots_cache (<[base := Some rp]> (robots_cache self)) self')
                end
            end
        end
    end.

(** *** Extraction *)

(** [self._normalize(urljoin(base_url, href))]. *)
Definition absolute_url (base_url href : string) : option string :=
  urljoin base_url href ≫= _normalize.

(** The loop of [_extract_links] over [soup.find_all("a", href=True)]:
    the values the generator yields and how it ends; [seen] is the local
    set. *)
Fixpoint extract_links_loop (self : CrawlSession) (base_url : string)
    (tags : list tag) (seen : gset string) : list string * ending :=
  match tags with
  | [] => ([], Exhausted)
  | t :: rest =>
      let href := default EmptyString (Soup.get t "href") in
      if Py.startswith href "mailto:" || Py.startswith href "javascript:"
      then extract_links_loop self base_url rest seen
      else
        match absolute_url base_url href with
        | None => ([], Raised)
        | Some absolute =>
            match _is_same_domain self absolute with
            | None => ([], Raised)
            | Some same =>
                if same && negb (bool_decide (absolute ∈ seen)) then
                  let '(links, e) :=
                    extract_links_loop self base_url rest ({[absolute]} ∪ seen) in
                  (absolute :: links, e)
                else extract_links_loop self base_url rest seen
            end
        end
  end.

Definition anchors (soup : list node) : list tag :=
  Soup.find_all
    (fun t => String.eqb (tag_name t) "a" && Soup.has_attr t "href") soup.

(** The generator [_extract_links(result)], run to its end. *)
Definition _extract_links (self : CrawlSession) (result : FetchResult)
    : list string * ending :=
  extract_links_loop self (final_url result) (anchors (content result)) ∅.

(** [link] is yielded for the anchor [t]: its [href] passed the test on
    its first characters and resolves to [link]. *)
Definition link_of (base_url : string) (link : string) (t : tag) : Prop :=
  let href := default EmptyString (Soup.get t "href") in
  Py.startswith href "mailto:" = false
  /\ Py.startswith href "javascript:" = false
  /\ absolute_url base_url href = Some link.

Definition _describe_context (t : tag) : option string :=
  let text := Soup.get_text " " (tag_contents t) in
  if Py.truthy text then Some text
  else match tag_parent t with
       | Some parent => Some (Py.take 200 (Soup.get_text " " parent))
       | None => None
       end.

(** [tag.get("href") or tag.get("src") or tag.get("data")]. *)
Definition url_attr (t : tag) : option string :=
  py_or (Soup.get t "href") (py_or (Soup.get t "src") (Soup.get t "data")).

(** What a tag has to say in the second loop of [_extract_pdfs]. *)
Inductive verdict : Type :=
| Skip
| Entry (absolute : string) (ctx : option string)
| Fails.

(** The second loop of [_extract_pdfs] up to [context = ...]: the URL and
    context a tag contributes, [Skip] where the loop says [continue],
    [Fails] where [urljoin] or [urldefrag] raises. *)
Definition candidate (base_url : string) (t : tag) : verdict :=
  match url_attr t with
  | Some (String c a) =>
      match absolute_url base_url (String c a) with
      | None => Fails
      | Some absolute =>
          if negb (Py.endswith (Py.lower absolute) ".pdf")
             && negb (bool_decide (Soup.get t "type" = Some "application/pdf"))
          then Skip
          else Entry absolute (_describe_context t)
      end
  | _ => Skip
  end.

(** That loop. *)
Fixpoint extract_pdfs_loop (base_url : string) (tags : list tag)
    (pdfs : Py.dict (option string)) : option (Py.dict (option string)) :=
  match tags with
  | [] => Some pdfs
  | t :: rest =>
      match candidate base_url t with
      | Fails => None
      | Skip => extract_pdfs_loop base_url rest pdfs
      | Entry absolute ctx =>
          extract_pdfs_loop base_url rest (Py.setdefault pdfs absolute ctx)
      end
  end.

Definition document_tags (soup : list node) : list tag :=
  Soup.find_all (fun t => Soup.name_in t ["a"; "iframe"; "embed"; "object"]) soup.

(** The first loop of [_extract_pdfs]. *)
Definition observed_pdfs (result : FetchResult) : Py.dict (option string) :=
  if detected_pdfs_truthy result then
    fold_left (fun pdfs url => Py.set pdfs url (Some network_label))
      (Py.values (default [] (detected_pdfs result))) []
  else [].

Definition _extract_pdfs (result : FetchResult)
    : option (list (string * option string)) :=
  extract_pdfs_loop (final_url result) (document_tags (content result))
    (observed_pdfs result).

(** The entries of both rules before they are merged: the
    network-observed URLs with the fixed label, then the DOM candidates in
    document order. *)
Definition observed_entries (result : FetchResult) : Py.dict (option string) :=
  if detected_pdfs_truthy result then
    map (fun url => (url, Some network_label))
      (Py.values (default [] (detected_pdfs result)))
  else [].

Definition entry_of (v : verdict) : list (string * option string) :=
  match v with
  | Entry absolute ctx => [(absolute, ctx)]
  | _ => []
  end.

Definition dom_entries (result : FetchResult) : Py.dict (option string) :=
  flat_map (fun t => entry_of (candidate (final_url result) t))
    (document_tags (content result)).

(** *** Fetching a page *)

(** The first half of [_fetch_page]: the static fetch, run in the
    executor. *)
Definition fetch_static (env : Env) (self : CrawlSession) (url : string)
    : option FetchResult * CrawlSession :=
  let '(result, log) :=
    StaticFetcher_fetch env (Z.to_nat (retries (config self) + 1))
      (events self) url in
  (result, with_events log self).

(** Whether [_fetch_page] returns the static result at once:
    [result and not self._requires_playwright(result)]. *)
Definition static_suffices (result : option FetchResult) : bool :=
  match result with
  | Some r => negb (_requires_playwright r)
  | None => false
  end.

(** The second half of [_fetch_page], entered when a rendering fetcher is
    present: the rendered result if there is one, else the static one. *)
Definition fetch_dynamic (env : Env) (self : CrawlSession) (url : string)
    (result : option FetchResult) : option FetchResult * CrawlSession :=
  let '(dynamic_result, log) := PlaywrightFetcher_fetch env (events self) url in
  (match dynamic_result with Some d => Some d | None => result end,
   with_events log self).

Definition _fetch_page (env : Env) (self : CrawlSession) (url : string)
    : option FetchResult * CrawlSession :=
  let '(result, self1) := fetch_static env self url in
  if static_suffices result then (result, self1)
  else if playwright_fetcher self1 then fetch_dynamic env self1 url result
  else (result, self1).

(** *** The document registry: the body of the loop over [pdfs] *)

Definition register (env : Env) (result : FetchResult) (self : CrawlSession)
    (pdf : string * option string) : CrawlSession :=
  let '(pdf_url, ctx) := pdf in
  if Py.mem (downloaded self) pdf_url then self
  else
    match
      build_document env (output_dir (config self)) pdf_url (final_url result)
        ctx (events self)
    with
    | (Some document, log) =>
        with_events log
          (with_downloaded (Py.set (downloaded self) pdf_url document) self)
    | (None, log) => with_events log self
    end.

(** The tasks the last loop of [_process] appends: it takes what the
    generator yields, up to its end or to the exception that ends both. *)
Definition new_tasks (self : CrawlSession) (task : PageTask)
    (result : FetchResult) : list PageTask :=
  if depth task <? max_depth (config self) then
    map (fun link => mkPageTask link (depth task + 1))
      (List.filter (fun link => negb (bool_decide (link ∈ visited self)))
         (fst (_extract_links self result)))
  else [].

(** [_process] from [pdfs = self._extract_pdfs(result)] on: it runs
    without suspension.  When [_extract_pdfs] raises nothing is registered
    and nothing appended. *)
Definition process_result (env : Env) (self : CrawlSession) (task : PageTask)
    (result : FetchResult) (queue : list PageTask)
    : CrawlSession * list PageTask :=
  match _extract_pdfs result with
  | None => (self, queue)
  | Some pdfs =>
      let self' := fold_left (register env result) pdfs self in
      (self', queue ++ new_tasks self' task result)
  end.

(** [_process], when nothing else runs in between. *)
Definition _process (env : Env) (self : CrawlSession) (task : PageTask)
    (queue : list PageTask) : CrawlSession * list PageTask :=
  let '(allowed, self1) := _is_allowed env self (task_url task) in
  match allowed with
  | Some true =>
      let '(result, self2) := _fetch_page env self1 (task_url task) in
      match result with
      | None => (self2, queue)
      | Some r => process_result env self2 task r queue
      end
  | _ => (self1, queue)
  end.

(** *** The frontier scheduler

    [run] and the coroutines it creates share one event loop: a coroutine
    runs until it awaits.  [_process] awaits twice, on the static fetch and
    on the rendering fetch, so a task in flight is in one of three stages.
    A move is either the main loop taking a task off the queue, or the
    event loop resuming a task in flight. *)

Inductive stage : Type :=
| Created
| AwaitStatic
| AwaitPlaywright (result : option FetchResult).

Record RunState : Type := mkRunState {
  session : CrawlSession;
  queue : list PageTask;
  tasks : list (PageTask * stage)
}.

Inductive move : Type :=
| MainLoop
| Resume (i : nat).

(** [crawl_async] and [run] up to the loop: [None] when the session cannot
    be made. *)
Definition run_init (env : Env) (config : CrawlConfig) (playwright : bool)
    : option RunState :=
  self ← CrawlSession_init env config playwright;
  Some (mkRunState self [mkPageTask (cfg_url config) 0] []).

(** One turn of the inner [while] of [run]. *)
Definition main_loop (st : RunState) : option RunState :=
  let self := session st in
  match queue st with
  | [] => None
  | task :: rest =>
      if Z.of_nat (length (tasks st)) <? concurrency (config self) then
        if bool_decide (task_url task ∈ visited self) then
          Some (mkRunState self rest (tasks st))
        else
          Some (mkRunState
                  (record (CreateTask task)
                     (with_visited ({[task_url task]} ∪ visited self) self))
                  rest (tasks st ++ [(task, Created)]))
      else None
  end.

(** The end of a task: [_fetch_page] has returned, with or without a
    result. *)
Definition finish (env : Env) (st : RunState) (i : nat) (task : PageTask)
    (self : CrawlSession) (result : option FetchResult) : RunState :=
  match result with
  | None => mkRunState self (queue st) (delete i (tasks st))
  | Some r =>
      let '(self', queue') := process_result env self task r (queue st) in
      mkRunState self' queue' (delete i (tasks st))
  end.

(** The event loop resumes the [i]-th task in flight.  A task that is not
    allowed, or whose [_is_allowed] raises, ends at once. *)
Definition resume (env : Env) (st : RunState) (i : nat) : option RunState :=
  match tasks st !! i with
  | None => None
  | Some (task, Created) =>
      let '(allowed, self1) := _is_allowed env (session st) (task_url task) in
      match allowed with
      | Some true =>
          Some (mkRunState self1 (queue st) (<[i := (task, AwaitStatic)]> (tasks st)))
      | _ => Some (mkRunState self1 (queue st) (delete i (tasks st)))
      end
  | Some (task, AwaitStatic) =>
      let '(result, self1) := fetch_static env (session st) (task_url task) in
      if static_suffices result then Some (finish env st i task self1 result)
      else if playwright_fetcher self1 then
        Some (mkRunState self1 (queue st)
                (<[i := (task, AwaitPlaywright result)]> (tasks st)))
      else Some (finish env st i task self1 result)
  | Some (task, AwaitPlaywright result) =>
      let '(result', self1) :=
        fetch_dynamic env (session st) (task_url task) result in
      Some (finish env st i task self1 result')
  end.

Definition step (env : Env) (m : move) (st : RunState) : option RunState :=
  match m with
  | MainLoop => main_loop st
  | Resume i => resume env st i
  end.

(** The states a crawl can be in. *)
Inductive reachable (env : Env) (config : CrawlConfig) (playwright : bool)
    : RunState -> Prop :=
| reachable_init st :
    run_init env config playwright = Some st ->
    reachable env config playwright st
| reachable_step st m st' :
    reachable env config playwright st ->
    step env m st = Some st' ->
    reachable env config playwright st'.

(** Any number of moves. *)
Inductive crawl_steps (env : Env) : RunState -> RunState -> Prop :=
| crawl_steps_refl st : crawl_steps env st st
| crawl_steps_step st m st' st'' :
    step env m st = Some st' ->
    crawl_steps env st' st'' ->
    crawl_steps env st st''.

(** The moves of a list, one after the other. *)
Fixpoint moves (env : Env) (ms : list move) (st : RunState)
    : option RunState :=
  match ms with
  | [] => Some st
  | m :: ms' =>
      match step env m st with
      | Some st' => moves env ms' st'
      | None => None
      end
  end.

(** The event loop resumes the first task in flight until no task is
    left. *)
Fixpoint resume_until_done (env : Env) (fuel : nat) (st : RunState)
    : option RunState :=
  match tasks st with
  | [] => Some st
  | _ :: _ =>
      match fuel with
      | O => None
      | S fuel' =>
          match resume env st 0 with
          | Some st' => resume_until_done env fuel' st'
          | None => None
          end
      end
  end.

(** [while queue or tasks] has ended. *)
Definition finished (st : RunState) : bool :=
  match queue st, tasks st with
  | [], [] => true
  | _, _ => false
  end.

(** What [run] returns: [list(self.downloaded.values())]. *)
Definition run_result (st : RunState) : list PDFDocument :=
  Py.values (downloaded (session st)).

(** The event loop's order when every awaited call completes in the order
    it was issued: the main loop runs while it can, then the tasks just
    created start, then the oldest task in flight goes on. *)
Definition first_created (ts : list (PageTask * stage)) : option nat :=
  (fix go (l : list (PageTask * stage)) (i : nat) : option nat :=
     match l with
     | [] => None
     | (_, Created) :: _ => Some i
     | _ :: l' => go l' (S i)
     end) ts 0%nat.

Definition next_move (st : RunState) : move :=
  match main_loop st with
  | Some _ => MainLoop
  | None =>
      match first_created (tasks st) with
      | Some i => Resume i
      | None => Resume 0
      end
  end.

(** [run] under that order; [None] when [fuel] moves do not finish. *)
Fixpoint run (env : Env) (fuel : nat) (st : RunState)
    : option (list PDFDocument * RunState) :=
  if finished st then Some (run_result st, st)
  else
    match fuel with
    | O => None
    | S fuel' =>
        match step env (next_move st) st with
        | Some st' => run env fuel' st'
        | None => None
        end
    end.

(** [crawl_async]: the session is made and run. *)
Definition crawl (env : Env) (config : CrawlConfig) (playwright : bool)
    (fuel : nat) : option (list PDFDocument * RunState) :=
  run_init env config playwright ≫= run env fuel.

End Crawler.


(** ** Reading the event log *)

(** The URLs for which a download was opened for writing, newest first:
    the file is on disk, in full or in part. *)
Fixpoint written_urls (log : list event) : list string :=
  match log with
  | [] => []
  | Storage (FileWrite url _ outcome) :: older =>
      match outcome with
      | OpenFailed => written_urls older
      | _ => url :: written_urls older
      end
  | _ :: older => written_urls older
  end.

(** The URLs whose download was written in full. *)
Fixpoint completed_urls (log : list event) : list string :=
  match log with
  | [] => []
  | Storage (FileWrite url _ Written) :: older => url :: completed_urls older
  | _ :: older => completed_urls older
  end.

(** How often the log shows the storage asking for [url]. *)
Fixpoint downloads (url : string) (log : list event) : nat :=
  match log with
  | [] => 0%nat
  | Storage (Download u) :: older =>
      ((if String.eqb u url then 1 else 0) + downloads url older)%nat
  | _ :: older => downloads url older
  end.

(** The tasks handed to the event loop, newest first. *)
Fixpoint scheduled (log : list event) : list PageTask :=
  match log with
  | [] => []
  | CreateTask task :: older => task :: scheduled older
  | _ :: older => scheduled older
  end.

Definition scheduled_urls (log : list event) : list string :=
  map task_url (scheduled log).

(** The URL an event fetches, for the page fetches. *)
Definition fetched_url (e : event) : option string :=
  match e with
  | HttpGet url | PlaywrightGoto url => Some url
  | _ => None
  end.

(** Every page fetch in the log is for a URL handed to the event loop
    earlier in the log. *)
Fixpoint fetches_follow_creation (log : list event) : Prop :=
  match log with
  | [] => True
  | e :: older =>
      match fetched_url e with
      | Some url => In url (scheduled_urls older)
      | None => True
      end
      /\ fetches_follow_creation older
  end.

(** How often the log shows a read of the robots file of [base]. *)
Fixpoint robots_reads (base : string) (log : list event) : nat :=
  match log with
  | [] => 0%nat
  | RobotsRead b :: older =>
      ((if String.eqb b base then 1 else 0) + robots_reads base older)%nat
  | _ :: older => robots_reads base older
  end.

(** ** Invariants of a crawl *)

(** The registry and the log agree: one entry per URL, each document filed
    under its own URL, and the download of each was written in full. *)
Definition registry_ok (self : CrawlSession) : Prop :=
  NoDup (Py.keys (downloaded self))
  /\ (forall k d, In (k, d) (downloaded self) -> doc_url d = k)
  /\ (forall k, In k (Py.keys (downloaded self)) ->
        In k (completed_urls (events self))).

(** What the steps of a task in flight keep of a session. *)
Definition steady (self self' : CrawlSession) : Prop :=
  config self' = config self
  /\ visited self' = visited self
  /\ allowed_domains self' = allowed_domains self
  /\ scheduled (events self') = scheduled (events self)
  /\ (registry_ok self -> registry_ok self')
  /\ (fetches_follow_creation (events self)
      -> fetches_follow_creation (events self')).

(** A task's URL is the seed as configured or has no fragment; its depth
    is within the limit (the seed has depth 0 whatever the limit). *)
Definition task_ok (cfg : CrawlConfig) (task : PageTask) : Prop :=
  (task_url task = cfg_url cfg \/ Py.contains "#" (task_url task) = false)
  /\ 0 <= depth task <= Z.max 0 (max_depth cfg).

Record crawl_invariant (cfg : CrawlConfig) (st : RunState) : Prop := {
  inv_config : config (session st) = cfg;
  inv_domains :
    exists netloc,
      Url.netloc (cfg_url cfg) = Some netloc
      /\ allowed_domains (session st) = {[ netloc ]};
  inv_nodup : NoDup (scheduled_urls (events (session st)));
  inv_visited :
    forall u, u ∈ visited (session st) <-> In u (scheduled_urls (events (session st)));
  inv_queue : forall t, In t (queue st) -> task_ok cfg t;
  inv_scheduled : forall t, In t (scheduled (events (session st))) -> task_ok cfg t;
  inv_tasks :
    forall t stg, In (t, stg) (tasks st) -> In t (scheduled (events (session st)));
  inv_fetches : fetches_follow_creation (events (session st));
  inv_registry : registry_ok (session st)
}.

(** ** Rule 2 of the selector as the specification words it *)

(** "an anchor/iframe/embed element exposing an [href] or [src]
    attribute". *)
Definition exposes_reference (t : tag) : bool :=
  Soup.name_in t ["a"; "iframe"; "embed"]
  && (Soup.has_attr t "href" || Soup.has_attr t "src").

(** ** What a move may do to a session *)

(** [self'] continues [self]: the settings, the visited set and the allowed
    domains are the same, every registered document is still registered
    with the same record, and the log has grown by events that satisfy
    [P]. *)
Definition extends (P : event -> Prop) (self self' : CrawlSession) : Prop :=
  config self' = config self
  /\ playwright_fetcher self' = playwright_fetcher self
  /\ visited self' = visited self
  /\ allowed_domains self' = allowed_domains self
  /\ (forall k d, Py.get (downloaded self) k = Some d ->
                  Py.get (downloaded self') k = Some d)
  /\ exists new, events self' = new ++ events self /\ Forall P new.


(** The seed task of a crawl. *)
Definition seed (cfg : CrawlConfig) : PageTask := mkPageTask (cfg_url cfg) 0.

(** [url] is on the host of the seed. *)
Definition same_site (cfg : CrawlConfig) (url : string) : Prop :=
  exists netloc,
    Url.netloc url = Some netloc /\ Url.netloc (cfg_url cfg) = Some netloc.

(** Where the tasks of a crawl come from: a task is the seed, or was made
    from a link, one level below the page that showed it. *)
Definition bred (cfg : CrawlConfig) (task : PageTask) : Prop :=
  same_site cfg (task_url task) /\ (task = seed cfg \/ 1 <= depth task).

(** What the log of a crawl may hold. *)
Definition event_ok (cfg : CrawlConfig) (playwright : bool) (e : event)
    : Prop :=
  match e with
  | RobotsRead base =>
      respect_robots_txt cfg = true
      /\ exists url, same_site cfg url /\ origin url = Some base
  | HttpGet url => same_site cfg url
  | PlaywrightGoto url => playwright = true /\ same_site cfg url
  | Storage _ => True
  | CreateTask task => bred cfg task
  end.

Record traffic_invariant (cfg : CrawlConfig) (playwright : bool)
    (st : RunState) : Prop := {
  tr_fetcher : playwright_fetcher (session st) = playwright;
  tr_bound : Z.of_nat (length (tasks st)) <= Z.max 0 (concurrency cfg);
  tr_queue : forall t, In t (queue st) -> bred cfg t;
  tr_tasks :
    forall t stg, In (t, stg) (tasks st) ->
      bred cfg t /\ (forall r, stg = AwaitPlaywright r -> playwright = true);
  tr_events : Forall (event_ok cfg playwright) (events (session st))
}.

(** ** How far a queued task is from the event loop *)

(** The moves a task in flight has left, at most. *)
Definition remaining (stg : stage) : nat :=
  match stg with
  | Created => 3
  | AwaitStatic => 2
  | AwaitPlaywright _ => 1
  end.

Definition work (ts : list (PageTask * stage)) : nat :=
  list_sum (map (fun ts => remaining (snd ts)) ts).

(** The number of tasks of the queue up to the first one for [url]. *)
Fixpoint ahead (url : string) (q : list PageTask) : nat :=
  match q with
  | [] => 0
  | t :: q' => if String.eqb (task_url t) url then 1 else S (ahead url q')
  end.

(** A bound on the moves a crawl can make before a task for [url] leaves
    the queue: each turn of the main loop takes one task off the queue and
    adds at most one task in flight, each other move takes a task in
    flight one stage on. *)
Definition distance (url : string) (st : RunState) : nat :=
  (4 * ahead url (queue st) + work (tasks st))%nat.

(** ** What the storage does to the log *)

(** The log an action leaves is the log it found, with events that satisfy
    [P] on top. *)
Definition grows {A} (P : event -> Prop) (m : io A) : Prop :=
  forall log, exists new, snd (m log) = new ++ log /\ Forall P new.

(** The events of a call of the storage for [url]. *)
Definition storage_event (url : string) (e : event) : Prop :=
  match e with
  | Storage (Download u) | Storage (FileWrite u _ _) => u = url
  | Storage _ => True
  | _ => False
  end.


(** ** Pages, environments and sessions used in the examples *)

Module Ex.

(** The name of a file without its [.pdf]. *)
Definition stem (name : string) : string :=
  Py.take (String.length name - 4) name.

(** The stems of the files the log shows opened for writing in [dir]. *)
Fixpoint stems (log : list event) (dir : Path) : list string :=
  match log with
  | [] => []
  | Storage (FileWrite _ target outcome) :: older =>
      match outcome with
      | OpenFailed => stems older dir
      | _ =>
          if bool_decide (parent target = dir)
          then stem (List.last target EmptyString) :: stems older dir
          else stems older dir
      end
  | _ :: older => stems older dir
  end.

(** A network as given, with a disk that takes every call and holds what
    the crawl has written; the files have no title. *)
Definition on_disk (robots : list event -> string -> option RobotFileParser)
    (get : list event -> string -> option Response)
    (goto : list event -> string -> option RenderedPage) : Env :=
  mkEnv robots get goto
    (fun _ _ => Some tt) (fun _ _ => Some tt) (fun log dir => Some (stems log dir))
    (fun _ _ => Written) (fun _ _ => Some 1024) (fun _ _ => None)
    (fun _ _ => Some false) (fun _ _ _ => Some tt).

(** No network: every request raises. *)
Definition env_down : Env :=
  mkEnv (fun _ _ => None) (fun _ _ => None) (fun _ _ => None)
    (fun _ _ => None) (fun _ _ => Some tt) (fun log dir => Some (stems log dir))
    (fun _ _ => Written) (fun _ _ => Some 1024) (fun _ _ => None)
    (fun _ _ => Some false) (fun _ _ _ => Some tt).

Definition allow_all : RobotFileParser := mkRobot (fun _ _ => Some true).

Definition config1 : CrawlConfig :=
  mkCrawlConfig "http://example.com/" ["downloads"] 1 1 30 true 2.

Definition script_src (src : string) : node :=
  Tag "script" [("src", src)] [].

(** A client-rendered shell: eleven external scripts, an empty mount
    point, no text. *)
Definition shell : FetchResult :=
  mkFetchResult "http://example.com/" 
    [Tag "html" []
       [Tag "head" [] (repeat (script_src "/static/app.js") 11);
        Tag "body" [] [Tag "div" [("id", "root")] []]]]
    "http://example.com/" false None (Some "text/html").

(** The same shell with inline scripts. *)
Definition inline_shell : FetchResult :=
  mkFetchResult "http://example.com/"
    [Tag "html" []
       [Tag "head" []
          (repeat (Tag "script" [] [NavigableString false "boot()"]) 11);
        Tag "body" [] [Tag "div" [("id", "root")] []]]]
    "http://example.com/" false None (Some "text/html").

(** A PDF answered in-band by the static fetch. *)
Definition pdf_response : FetchResult :=
  static_result "http://example.com/report"
    (mkResponse "http://example.com/report.pdf" (Some "Application/PDF") []).

Definition report_page : FetchResult :=
  mkFetchResult "http://example.com/"
    [Tag "a" [("href", "/doc.pdf")] [NavigableString true "Report"];
     Tag "a" [("href", "/next")] [NavigableString true "Next"]]
    "http://example.com/" false None (Some "text/html").

(** The same page rendered, the PDF seen on the network as well. *)
Definition rendered_page : FetchResult :=
  mkFetchResult "http://example.com/" (content report_page)
    "http://example.com/" true
    (Some [("http://example.com/doc.pdf", "http://example.com/doc.pdf")])
    (Some "text/html").

(** The session [CrawlSession(config1, ...)] makes. *)
Definition session1 : CrawlSession :=
  mkCrawlSession config1 true ∅ [] {[ "example.com" ]} ∅
    [Storage (MakeDir ["downloads"])].

(** A site of one page, which links to itself; robots.txt allows
    everything, downloads succeed. *)
Definition home : list node :=
  [Tag "a" [("href", "/")] [NavigableString true "Home"]].

Definition env_home : Env :=
  on_disk (fun _ _ => Some allow_all)
    (fun _ url => Some (mkResponse url (Some "text/html") home))
    (fun _ url => Some (mkRenderedPage home url [])).

(** A site whose pages all show the report page; downloads succeed. *)
Definition env_site : Env :=
  on_disk (fun _ _ => Some allow_all)
    (fun _ url => Some (mkResponse url (Some "text/html") (content report_page)))
    (fun _ url => Some (mkRenderedPage (content report_page) url [])).


(** The state a crawl ends in; when it does not end, a state with nothing
    in it. *)
Definition end_state (cfg : CrawlConfig)
    (outcome : option (list PDFDocument * RunState)) : RunState :=
  match outcome with
  | Some (_, st) => st
  | None => mkRunState (mkCrawlSession cfg false ∅ [] ∅ ∅ []) [] []
  end.

(** The state in which the crawl of [env_site] under [config1] ends. *)
Definition site_end : RunState :=
  end_state config1 (crawl Url.urljoin env_site config1 true 40).

(** A site that answers every request with a PDF. *)
Definition env_pdf : Env :=
  on_disk (fun _ _ => Some allow_all)
    (fun _ url => Some (mkResponse url (Some "application/pdf") []))
    (fun _ _ => None).

Definition config_pdf : CrawlConfig :=
  mkCrawlConfig "http://example.com/report.pdf" ["downloads"] 1 3 30 true 2.

(** A negative depth limit. *)
Definition config_negative : CrawlConfig :=
  mkCrawlConfig "http://example.com/" ["downloads"] (-1) 3 30 true 2.

(** The seed carries a fragment; the other settings are the defaults. *)
Definition config_fragment : CrawlConfig :=
  mkCrawlConfig "http://example.com/#top" ["downloads"] 1 3 30 true 2.

(** A page that refers to a PDF on another host. *)
Definition offsite_link : tag :=
  mkTag "a" [("href", "http://cdn.other.org/files/Manual.PDF")]
    [NavigableString true "Manual"]
    (Some [Tag "a" [("href", "http://cdn.other.org/files/Manual.PDF")]
             [NavigableString true "Manual"]]).

Definition offsite_page : FetchResult :=
  mkFetchResult "http://example.com/"
    [Tag "a" [("href", "http://cdn.other.org/files/Manual.PDF")]
       [NavigableString true "Manual"]]
    "http://example.com/" false None (Some "text/html").

(** The same page with one more anchor, whose [href] opens a bracket and
    does not close it. *)
Definition broken_page : FetchResult :=
  mkFetchResult "http://example.com/"
    [Tag "a" [("href", "http://cdn.other.org/files/Manual.PDF")]
       [NavigableString true "Manual"];
     Tag "a" [("href", "/next")] [NavigableString true "Next"];
     Tag "a" [("href", "http://[::1")] [NavigableString true "Local"]]
    "http://example.com/" false None (Some "text/html").

(** A site whose pages all show that page. *)
Definition env_broken : Env :=
  on_disk (fun _ _ => Some allow_all)
    (fun _ url => Some (mkResponse url (Some "text/html") (content broken_page)))
    (fun _ url => Some (mkRenderedPage (content broken_page) url [])).

(** A page whose anchors use upper-case schemes with the site's host. *)
Definition scheme_page : FetchResult :=
  mkFetchResult "http://example.com/"
    [Tag "a" [("href", "JAVASCRIPT://example.com/%0Aalert(1)")]
       [NavigableString true "Run"];
     Tag "a" [("href", "Mailto://example.com")]
       [NavigableString true "Write"];
     Tag "a" [("href", "mailto:info@example.com")]
       [NavigableString true "Mail"];
     Tag "a" [("href", "/about#team")] [NavigableString true "About"];
     Tag "a" [("href", "/about")] [NavigableString true "About us"];
     Tag "a" [("href", "http://www.example.com/")] [NavigableString true "www"]]
    "http://example.com/" false None (Some "text/html").

(** The site of [env_site] on a disk where the size of a file cannot be
    read until two downloads have been written. *)
Definition env_flaky : Env :=
  mkEnv (fun _ _ => Some allow_all)
    (fun _ url => Some (mkResponse url (Some "text/html") (content report_page)))
    (fun _ url => Some (mkRenderedPage (content report_page) url []))
    (fun _ _ => Some tt) (fun _ _ => Some tt) (fun log dir => Some (stems log dir))
    (fun _ _ => Written)
    (fun log _ => if (2 <=? length (written_urls log))%nat then Some 1024 else None)
    (fun _ _ => None) (fun _ _ => Some false) (fun _ _ _ => Some tt).

(** The state in which the crawl of [env_flaky] under [config1] ends. *)
Definition flaky_end : RunState :=
  end_state config1 (crawl Url.urljoin env_flaky config1 true 40).

(** The state after [n] moves in the order of [run], or fewer when no move
    is left. *)
Fixpoint advance (env : Env) (n : nat) (st : RunState) : RunState :=
  match n with
  | O => st
  | S n' =>
      match step Url.urljoin env (next_move st) st with
      | Some st' => advance env n' st'
      | None => st
      end
  end.

(** The state the crawl of [config1] starts in, and its state after three
    moves, when the seed's page has been processed. *)
Definition site_start : RunState :=
  mkRunState session1 [mkPageTask "http://example.com/" 0] [].

Definition site_mid : RunState := advance env_site 3 site_start.

(** Politeness switched off, no rendering fetcher, two tasks at a time. *)
Definition config_plain : CrawlConfig :=
  mkCrawlConfig "http://example.com/" ["downloads"] 1 2 30 false 0.

(** No task may run at a time. *)
Definition config_idle : CrawlConfig :=
  mkCrawlConfig "http://example.com/" ["downloads"] 1 0 30 true 2.

End Ex.


(** * Properties *)

(** ** Strings and dictionaries *)

Lemma contains_before (c : ascii) (s : string) :
  Py.contains c (Py.before c s) = false.
Proof.
  induction s as [|c' s IH]; simpl; [reflexivity|].
  destruct (Ascii.eqb c c') eqn:E; simpl; [reflexivity|].
  rewrite E. exact IH.
Qed.

Lemma contains_app (c : ascii) (a b : string) :
  Py.contains c (a +:+ b) = Py.contains c a || Py.contains c b.
Proof.
  induction a as [|c' a IH]; simpl; [reflexivity|].
  destruct (Ascii.eqb c c'); [reflexivity | exact IH].
Qed.

Lemma contains_rev_app (c : ascii) (s acc : string) :
  Py.contains c (String.rev_app s acc) = Py.contains c s || Py.contains c acc.
Proof.
  revert acc. induction s as [|c' s IH]; intros acc; simpl; [reflexivity|].
  rewrite IH. simpl. destruct (Ascii.eqb c c'); [apply orb_true_r | reflexivity].
Qed.

Lemma contains_rev (c : ascii) (s : string) :
  Py.contains c (String.rev s) = Py.contains c s.
Proof. unfold String.rev. rewrite contains_rev_app. apply orb_false_r. Qed.

(** The pieces the URL functions cut out of a string have no character the
    string has not. *)
Section Pieces.
Variable c : ascii.

Lemma absent_before (d : ascii) (s : string) :
  Py.contains c s = false -> Py.contains c (Py.before d s) = false.
Proof.
  induction s as [|c' s IH]; simpl; [reflexivity|].
  destruct (Ascii.eqb c c') eqn:E; [discriminate|]. intros H.
  destruct (Ascii.eqb d c'); simpl; [reflexivity|]. rewrite E. auto.
Qed.

Lemma absent_after (d : ascii) (s : string) :
  Py.contains c s = false ->
  Py.contains c (default EmptyString (Py.after d s)) = false.
Proof.
  induction s as [|c' s IH]; simpl; [reflexivity|].
  destruct (Ascii.eqb c c') eqn:E; [discriminate|]. intros H.
  destruct (Ascii.eqb d c'); simpl; auto.
Qed.

Lemma absent_before_any (cs s : string) :
  Py.contains c s = false -> Py.contains c (Py.before_any cs s) = false.
Proof.
  induction s as [|c' s IH]; simpl; [reflexivity|].
  destruct (Ascii.eqb c c') eqn:E; [discriminate|]. intros H.
  destruct (Py.contains c' cs); simpl; [reflexivity|]. rewrite E. auto.
Qed.

Lemma absent_from_any (cs s : string) :
  Py.contains c s = false -> Py.contains c (Py.from_any cs s) = false.
Proof.
  induction s as [|c' s IH]; simpl; [reflexivity|].
  destruct (Ascii.eqb c c') eqn:E; [discriminate|]. intros H.
  destruct (Py.contains c' cs); simpl; [now rewrite E | auto].
Qed.

Lemma absent_lstrip_c0 (s : string) :
  Py.contains c s = false -> Py.contains c (Url.lstrip_c0 s) = false.
Proof.
  induction s as [|c' s IH]; simpl; [reflexivity|].
  destruct (Ascii.eqb c c') eqn:E; [discriminate|]. intros H.
  destruct (nat_of_ascii c' <=? 32)%nat; simpl; [auto | now rewrite E].
Qed.

Lemma absent_remove_unsafe (s : string) :
  Py.contains c s = false -> Py.contains c (Url.remove_unsafe s) = false.
Proof.
  induction s as [|c' s IH]; [reflexivity|].
  cbn [Py.contains Url.remove_unsafe].
  destruct (Ascii.eqb c c') eqn:E; [discriminate|]. intros H.
  match goal with
  | |- context [if ?b then _ else _] => destruct b
  end; cbn [Py.contains]; [auto | rewrite E; auto].
Qed.

Lemma absent_splitparams (s : string) :
  Py.contains c s = false ->
  Ascii.eqb c ";" = false ->
  Py.contains c (fst (Url.splitparams s)) = false
  /\ Py.contains c (snd (Url.splitparams s)) = false.
Proof.
  intros H Hc. unfold Url.splitparams.
  assert (Hr : Py.contains c (String.rev s) = false) by now rewrite contains_rev.
  destruct (Py.contains ";" _); simpl; [|auto].
  split.
  - rewrite contains_app, contains_rev. rewrite absent_from_any by assumption.
    apply absent_before. rewrite contains_rev. now apply absent_before.
  - apply absent_after. rewrite contains_rev. now apply absent_before.
Qed.

End Pieces.

Lemma before_any_stops (c : ascii) (cs s : string) :
  Py.contains c cs = true -> Py.contains c (Py.before_any cs s) = false.
Proof.
  intros Hc. induction s as [|c' s IH]; simpl; [reflexivity|].
  destruct (Py.contains c' cs) eqn:E; simpl; [reflexivity|].
  destruct (Ascii.eqb_spec c c') as [->|_]; [congruence | exact IH].
Qed.

Lemma scheme_char_lower (c : ascii) :
  Url.is_scheme_char c = true -> Ascii.eqb "#" (Py.lower_ascii c) = false.
Proof. destruct c as [[] [] [] [] [] [] [] []]; vm_compute; congruence. Qed.

Lemma scheme_no_fragment (s : string) :
  Url.all_scheme_chars s = true -> Py.contains "#" (Py.lower s) = false.
Proof.
  induction s as [|c s IH]; [reflexivity|].
  cbn [Py.lower Py.contains Url.all_scheme_chars].
  intros [Hc Hs]%andb_true_iff. rewrite (scheme_char_lower c Hc). auto.
Qed.

Lemma split_scheme_no_fragment (url sch rest : string) :
  Url.split_scheme url = Some (sch, rest) ->
  Py.contains "#" sch = false
  /\ (forall c, Py.contains c url = false -> Py.contains c rest = false).
Proof.
  unfold Url.split_scheme. destruct url as [|c0 url']; [discriminate|].
  destruct (Py.after ":" (String c0 url')) as [r|] eqn:Ha; [|discriminate].
  destruct (Url.is_alpha c0 && Url.all_scheme_chars _) eqn:E; [|discriminate].
  intros [= <- <-]. apply andb_true_iff in E as [_ E]. split.
  - now apply scheme_no_fragment.
  - intros c Hc. pose proof (absent_after c ":" _ Hc) as H. now rewrite Ha in H.
Qed.

(** What [urlparse] returns has no [#] outside its fragment. *)
Lemma urlparse_no_fragment (url : string) (p : Url.parts) :
  Url.urlparse url EmptyString = Some p ->
  Py.contains "#" (Url.p_scheme p) = false
  /\ Py.contains "#" (Url.p_netloc p) = false
  /\ Py.contains "#" (Url.p_path p) = false
  /\ Py.contains "#" (Url.p_params p) = false
  /\ Py.contains "#" (Url.p_query p) = false.
Proof.
  assert (Hsplit : forall q, Url.urlsplit url EmptyString = Some q ->
            Py.contains "#" (Url.p_scheme q) = false
            /\ Py.contains "#" (Url.p_netloc q) = false
            /\ Py.contains "#" (Url.p_path q) = false
            /\ Url.p_params q = EmptyString
            /\ Py.contains "#" (Url.p_query q) = false).
  { intros q. unfold Url.urlsplit.
    set (u := Url.remove_unsafe (Url.lstrip_c0 url)).
    assert (Hs : exists sch rest,
               match Url.split_scheme u with
               | Some (sch, rest) => (sch, rest)
               | None => (Url.remove_unsafe (String.rev (Url.lstrip_c0
                            (String.rev (Url.lstrip_c0 EmptyString)))), u)
               end = (sch, rest)
               /\ Py.contains "#" sch = false).
    { destruct (Url.split_scheme u) as [[sch rest]|] eqn:E.
      - exists sch, rest. split; [reflexivity|].
        now apply (split_scheme_no_fragment u sch rest).
      - eexists _, _. split; reflexivity. }
    destruct Hs as (sch & rest & -> & Hsch).
    assert (Hn : exists net rest',
               (if Py.startswith rest "//"
                then (Py.before_any "/?#" (Py.drop 2 rest),
                      Py.from_any "/?#" (Py.drop 2 rest))
                else (EmptyString, rest)) = (net, rest')
               /\ Py.contains "#" net = false).
    { destruct (Py.startswith rest "//"); eexists _, _; (split; [reflexivity|]);
        [now apply before_any_stops | reflexivity]. }
    destruct Hn as (net & rest' & -> & Hnet).
    destruct (negb (Url.netloc_ok net)); [discriminate|]. intros [= <-]. simpl.
    pose proof (contains_before "#" rest') as Hb.
    repeat split; try assumption.
    - now apply absent_before.
    - now apply absent_after. }
  unfold Url.urlparse.
  destruct (Url.urlsplit url EmptyString) as [q|]; [|discriminate].
  destruct (Hsplit q eq_refl) as (H1 & H2 & H3 & H4 & H5).
  cbn [mbind option_bind].
  destruct (Url.str_mem (Url.p_scheme q) Url.uses_params
            && Py.contains ";" (Url.p_path q)).
  - destruct (absent_splitparams "#" _ H3 eq_refl) as [Ha Hb].
    destruct (Url.splitparams (Url.p_path q)) as [path params].
    intros [= <-]. simpl in *. auto.
  - intros [= <-]. rewrite H4. auto.
Qed.

Lemma urlunparse_no_fragment (p : Url.parts) :
  Py.contains "#" (Url.p_scheme p) = false ->
  Py.contains "#" (Url.p_netloc p) = false ->
  Py.contains "#" (Url.p_path p) = false ->
  Py.contains "#" (Url.p_params p) = false ->
  Py.contains "#" (Url.p_query p) = false ->
  Url.p_fragment p = EmptyString ->
  Py.contains "#" (Url.urlunparse p) = false.
Proof.
  intros H1 H2 H3 H4 H5 H6. unfold Url.urlunparse. rewrite H6. simpl.
  repeat match goal with
         | |- context [if ?b then _ else _] => destruct b
         end;
    rewrite ?contains_app, ?H1, ?H2, ?H3, ?H4, ?H5; reflexivity.
Qed.

(** [urldefrag] leaves no [#]. *)
Lemma urldefrag_no_fragment (url clean : string) :
  Url.urldefrag url = Some clean -> Py.contains "#" clean = false.
Proof.
  unfold Url.urldefrag. destruct (Py.contains "#" url) eqn:E; [|congruence].
  destruct (Url.urlparse url EmptyString) as [p|] eqn:Hp; [|discriminate].
  intros [= <-].
  destruct (urlparse_no_fragment url p Hp) as (H1 & H2 & H3 & H4 & H5).
  now apply urlunparse_no_fragment.
Qed.

Section Dict.
Context {V : Type}.
Implicit Types (d : Py.dict V) (k : string) (v : V).

Lemma mem_get d k : Py.mem d k = true <-> exists v, Py.get d k = Some v.
Proof.
  unfold Py.mem. destruct (Py.get d k); split; eauto; try discriminate.
  intros [v Hv]; discriminate.
Qed.

Lemma mem_keys d k : Py.mem d k = true <-> In k (Py.keys d).
Proof.
  unfold Py.mem, Py.keys. induction d as [|[k' v'] d IH]; simpl.
  - split; [discriminate | tauto].
  - destruct (String.eqb_spec k k') as [->|Hne].
    + split; auto.
    + rewrite IH. split; [auto | intros [He|Hin]; [congruence|auto]].
Qed.

Lemma get_set_eq d k v : Py.get (Py.set d k v) k = Some v.
Proof.
  induction d as [|[k' v'] d IH]; simpl.
  - now rewrite String.eqb_refl.
  - destruct (String.eqb k k') eqn:E; simpl; rewrite E; auto.
Qed.

Lemma get_set_ne d k k' v : k <> k' -> Py.get (Py.set d k v) k' = Py.get d k'.
Proof.
  intros Hne. induction d as [|[k0 v0] d IH]; simpl.
  - destruct (String.eqb_spec k' k); congruence.
  - destruct (String.eqb_spec k k0) as [->|Hk]; simpl.
    + destruct (String.eqb_spec k' k0); congruence.
    + destruct (String.eqb k' k0); auto.
Qed.

Lemma keys_set d k v :
  Py.keys (Py.set d k v) = if Py.mem d k then Py.keys d else Py.keys d ++ [k].
Proof.
  unfold Py.mem, Py.keys. induction d as [|[k' v'] d IH]; simpl; [reflexivity|].
  destruct (String.eqb_spec k k') as [->|Hne]; simpl; [reflexivity|].
  rewrite IH. now destruct (Py.get d k).
Qed.

Lemma In_set d k v k' v' :
  In (k', v') (Py.set d k v) -> (k' = k /\ v' = v) \/ In (k', v') d.
Proof.
  induction d as [|[k0 v0] d IH]; simpl.
  - intros [[= <- <-]|[]]; auto.
  - destruct (String.eqb_spec k k0) as [->|Hne]; simpl.
    + intros [[= <- <-]|H]; auto.
    + intros [H|H]; auto. destruct (IH H); auto.
Qed.

Lemma NoDup_keys_set d k v : NoDup (Py.keys d) -> NoDup (Py.keys (Py.set d k v)).
Proof.
  intros Hnd. rewrite keys_set. destruct (Py.mem d k) eqn:E; [assumption|].
  apply NoDup_app. split; [assumption|]. split.
  - intros x Hx Hin. apply list_elem_of_In in Hx, Hin.
    destruct Hin as [<-|[]]. apply mem_keys in Hx. congruence.
  - apply NoDup_singleton.
Qed.

Lemma get_setdefault_eq d k v :
  Py.get (Py.setdefault d k v) k =
    match Py.get d k with Some v0 => Some v0 | None => Some v end.
Proof.
  unfold Py.setdefault, Py.mem. destruct (Py.get d k) eqn:E; [assumption|].
  apply get_set_eq.
Qed.

Lemma get_setdefault_ne d k k' v :
  k <> k' -> Py.get (Py.setdefault d k v) k' = Py.get d k'.
Proof.
  intros Hne. unfold Py.setdefault. destruct (Py.mem d k); [reflexivity|].
  now apply get_set_ne.
Qed.

Lemma get_app d d' k :
  Py.get (d ++ d') k =
    match Py.get d k with Some v => Some v | None => Py.get d' k end.
Proof.
  induction d as [|[k' v'] d IH]; simpl; [reflexivity|].
  destruct (String.eqb k k'); auto.
Qed.


Lemma In_get d k v : In (k, v) d -> exists v', Py.get d k = Some v'.
Proof.
  induction d as [|[k' v'] d IH]; simpl; [tauto|].
  destruct (String.eqb_spec k k') as [->|Hne]; [eauto|].
  intros [[= -> ->]|H]; [congruence | auto].
Qed.

End Dict.

(** ** The fetch strategy selector *)

(** Rule 1 of the selector on its own. *)
Lemma requires_playwright_detected (result : FetchResult) :
  detected_pdfs_truthy result = true -> _requires_playwright result = false.
Proof. intros H. unfold _requires_playwright. now rewrite H. Qed.

(** C8: a result whose [detected_pdfs] mapping is not empty never needs
    rendering, whatever its body. *)
Theorem requires_playwright_observed_documents (result : FetchResult)
    (observed : Py.dict string) :
  detected_pdfs result = Some observed ->
  observed <> [] ->
  _requires_playwright result = false.
Proof.
  intros Hd Hne. apply requires_playwright_detected.
  unfold detected_pdfs_truthy. rewrite Hd.
  destruct observed; [contradiction | reflexivity].
Qed.

Lemma requires_playwright_observed_documents_witness :
  _requires_playwright Ex.pdf_response = false.
Proof.
  apply (requires_playwright_observed_documents Ex.pdf_response
           [("http://example.com/report.pdf", "http://example.com/report.pdf")]).
  - reflexivity.
  - discriminate.
Defined.

(** Rule 3 fires when rules 1 and 2 do not: no tag at all makes the function
    given to [find_all] true. *)
Lemma requires_playwright_script_shell (result : FetchResult) :
  detected_pdfs_truthy result = false ->
  Soup.find_all static_reference (content result) = [] ->
  (10 < Z.of_nat (length (Soup.find_all
                    (fun t => String.eqb (tag_name t) "script") (content result)))) ->
  Py.len (Soup.get_text "" (content result)) < 200 ->
  _requires_playwright result = true.
Proof.
  intros H1 H2 H3 H4. unfold _requires_playwright. rewrite H1, H2.
  apply Z.gtb_lt in H3. apply Z.ltb_lt in H4. now rewrite H3, H4.
Qed.

(** The function given to [find_all] is true of any tag with a non-empty
    [src], whatever its name. *)
Lemma static_reference_src (t : tag) :
  Soup.get_truthy t "src" = true -> static_reference t = true.
Proof. intros H. unfold static_reference. rewrite H. apply orb_true_r. Qed.

(** Any tag with a non-empty [src], a [script] or an [img] as well as an
    [iframe], makes rule 2 answer that no rendering is needed. *)
Lemma requires_playwright_any_src (result : FetchResult) (t : tag) :
  In t (Soup.tags (content result)) ->
  Soup.get_truthy t "src" = true ->
  _requires_playwright result = false.
Proof.
  intros Hin Hsrc. unfold _requires_playwright.
  destruct (detected_pdfs_truthy result); [reflexivity|].
  destruct (Soup.find_all static_reference (content result)) eqn:E; [|reflexivity].
  assert (Hf : In t (Soup.find_all static_reference (content result))).
  { apply filter_In. split; [assumption | now apply static_reference_src]. }
  rewrite E in Hf. destruct Hf.
Qed.

(** C1 (the code departs from the claim): a shell with eleven external
    scripts, no text and no anchor, iframe or embed is not sent to
    rendering, because a [script] with a [src] passes the test of rule 2. *)
Theorem requires_playwright_external_script_shell :
  detected_pdfs Ex.shell = None
  /\ length (Soup.find_all (fun t => String.eqb (tag_name t) "script")
               (content Ex.shell)) = 11%nat
  /\ Py.len (Soup.get_text "" (content Ex.shell)) = 0
  /\ Soup.find_all exposes_reference (content Ex.shell) = []
  /\ _requires_playwright Ex.shell = false.
Proof. repeat split; reflexivity. Qed.

(** With inline scripts the same shell is sent to rendering. *)
Example requires_playwright_inline_shell :
  _requires_playwright Ex.inline_shell = true.
Proof. reflexivity. Qed.

(** ** The politeness gate *)

Section Politeness.
Variable urljoin : string -> string -> option string.
Variable env : Env.

(** With politeness switched off nothing is read and nothing changes. *)
Lemma is_allowed_disabled (self : CrawlSession) (url : string) :
  respect_robots_txt (config self) = false ->
  _is_allowed urljoin env self url = (Some true, self).
Proof. intros H. unfold _is_allowed. now rewrite H. Qed.

(** A failed read answers [True] and stores [None] under the origin. *)
Lemma is_allowed_read_fails (self : CrawlSession) (url base target : string) :
  respect_robots_txt (config self) = true ->
  origin url = Some base ->
  default None (robots_cache self !! base) = None ->
  robots_url urljoin base = Some target ->
  robots_read env (events self) target = None ->
  let '(allowed, self') := _is_allowed urljoin env self url in
  allowed = Some true
  /\ robots_cache self' !! base = Some None
  /\ events self' = RobotsRead base :: events self.
Proof.
  intros Hr Ho Hc Ht Hread. unfold _is_allowed.
  rewrite Hr, Ho, Hc, Ht, Hread. simpl. split; [reflexivity|].
  split; [|reflexivity]. apply lookup_insert_eq.
Qed.

(** An origin stored with [None] is read again by the next call. *)
Lemma is_allowed_cached_failure_reads (self : CrawlSession)
    (url base target : string) :
  respect_robots_txt (config self) = true ->
  origin url = Some base ->
  robots_cache self !! base = Some None ->
  robots_url urljoin base = Some target ->
  events (snd (_is_allowed urljoin env self url))
  = RobotsRead base :: events self.
Proof.
  intros Hr Ho Hc Ht. unfold _is_allowed. rewrite Hr, Ho, Hc, Ht. simpl.
  now destruct (robots_read env (events self) _).
Qed.

(** An origin stored with its rules is not read again. *)
Lemma is_allowed_cached_rules (self : CrawlSession) (url base : string)
    (rp : RobotFileParser) :
  respect_robots_txt (config self) = true ->
  origin url = Some base ->
  robots_cache self !! base = Some (Some rp) ->
  _is_allowed urljoin env self url = (can_fetch rp user_agent url, self).
Proof.
  intros Hr Ho Hc. unfold _is_allowed. now rewrite Hr, Ho, Hc.
Qed.

(** A URL that [urlparse] does not take makes the call raise, before
    anything is read. *)
Lemma is_allowed_raises (self : CrawlSession) (url : string) :
  respect_robots_txt (config self) = true ->
  origin url = None ->
  _is_allowed urljoin env self url = (None, self).
Proof. intros Hr Ho. unfold _is_allowed. now rewrite Hr, Ho. Qed.

End Politeness.

(** C2 (the code departs from the claim): with robots.txt unreachable, the
    first call for an origin answers [True] and stores [None] under the
    origin, and the second call for the same origin answers [True] after
    reading robots.txt a second time. *)
Theorem is_allowed_failed_origin_read_twice :
  let call1 := _is_allowed Url.urljoin Ex.env_down Ex.session1 "http://example.com/a" in
  let call2 := _is_allowed Url.urljoin Ex.env_down (snd call1) "http://example.com/b" in
  CrawlSession_init Ex.env_down Ex.config1 true = Some Ex.session1
  /\ fst call1 = Some true
  /\ robots_cache (snd call1) !! "http://example.com" = Some None
  /\ events (snd call1) = RobotsRead "http://example.com" :: events Ex.session1
  /\ fst call2 = Some true
  /\ events (snd call2)
     = RobotsRead "http://example.com" :: RobotsRead "http://example.com"
       :: events Ex.session1.
Proof. vm_compute. repeat split; reflexivity. Qed.

(** ** Extraction of documents *)

Section ExtractPdfs.
Variable urljoin : string -> string -> option string.

Lemma get_observed_loop (urls : list string) (acc : Py.dict (option string))
    (u : string) :
  Py.get (fold_left (fun pdfs url => Py.set pdfs url (Some network_label)) urls acc) u
  = if bool_decide (u ∈ urls) then Some (Some network_label) else Py.get acc u.
Proof.
  revert acc. induction urls as [|url urls IH]; intros acc; simpl.
  - reflexivity.
  - rewrite IH. destruct (decide (u = url)) as [->|Hne].
    + rewrite get_set_eq. rewrite (bool_decide_eq_true_2 (url ∈ url :: urls)) by left.
      now case_bool_decide.
    + rewrite get_set_ne by congruence.
      destruct (decide (u ∈ urls)) as [Hin|Hin].
      * rewrite !bool_decide_eq_true_2; [reflexivity | now right | assumption].
      * rewrite !bool_decide_eq_false_2; [reflexivity | | assumption].
        intros [?|?]%elem_of_cons; contradiction.
Qed.

Lemma NoDup_observed_loop (urls : list string) (acc : Py.dict (option string)) :
  NoDup (Py.keys acc) ->
  NoDup (Py.keys (fold_left (fun pdfs url => Py.set pdfs url (Some network_label))
                    urls acc)).
Proof.
  revert acc. induction urls as [|url urls IH]; intros acc H; simpl; [assumption|].
  apply IH. now apply NoDup_keys_set.
Qed.

Lemma get_labelled (urls : list string) (u : string) :
  Py.get (map (fun url => (url, Some network_label)) urls) u
  = if bool_decide (u ∈ urls) then Some (Some network_label) else None.
Proof.
  induction urls as [|url urls IH]; simpl; [reflexivity|].
  destruct (String.eqb_spec u url) as [->|Hne].
  - now rewrite bool_decide_eq_true_2 by left.
  - rewrite IH. destruct (decide (u ∈ urls)) as [Hin|Hin].
    + rewrite !bool_decide_eq_true_2; [reflexivity | now right | assumption].
    + rewrite !bool_decide_eq_false_2; [reflexivity | | assumption].
      intros [?|?]%elem_of_cons; contradiction.
Qed.

(** The loop returns unless a tag makes [urljoin] or [urldefrag] raise. *)
Lemma extract_pdfs_loop_returns (base_url : string) (ts : list tag)
    (pdfs : Py.dict (option string)) :
  (forall t, In t ts -> candidate urljoin base_url t <> Fails) ->
  exists pdfs', extract_pdfs_loop urljoin base_url ts pdfs = Some pdfs'.
Proof.
  revert pdfs. induction ts as [|t ts IH]; intros pdfs H; simpl; [eauto|].
  pose proof (H t (or_introl eq_refl)) as Ht.
  destruct (candidate urljoin base_url t); [| |contradiction];
    apply IH; intros t' Hin; apply H; now right.
Qed.

Lemma extract_pdfs_loop_raises (base_url : string) (ts : list tag)
    (pdfs : Py.dict (option string)) (t : tag) :
  In t ts -> candidate urljoin base_url t = Fails ->
  extract_pdfs_loop urljoin base_url ts pdfs = None.
Proof.
  revert pdfs. induction ts as [|t' ts IH]; intros pdfs; simpl; [tauto|].
  intros [->|Hin] Hc; [now rewrite Hc|].
  destruct (candidate urljoin base_url t'); auto.
Qed.

Lemma get_extract_pdfs_loop (base_url : string) (ts : list tag)
    (pdfs pdfs' : Py.dict (option string)) (u : string) :
  extract_pdfs_loop urljoin base_url ts pdfs = Some pdfs' ->
  Py.get pdfs' u
  = match Py.get pdfs u with
    | Some c => Some c
    | None =>
        Py.get (flat_map (fun t => entry_of (candidate urljoin base_url t)) ts) u
    end.
Proof.
  revert pdfs. induction ts as [|t ts IH]; intros pdfs; simpl.
  - intros [= <-]. now destruct (Py.get pdfs u).
  - destruct (candidate urljoin base_url t) as [|absolute ctx|]; simpl;
      [apply IH| |discriminate].
    intros H. rewrite (IH _ H).
    destruct (String.eqb_spec u absolute) as [->|Hne].
    + rewrite get_setdefault_eq. now destruct (Py.get pdfs absolute).
    + now rewrite get_setdefault_ne by congruence.
Qed.

Lemma NoDup_extract_pdfs_loop (base_url : string) (ts : list tag)
    (pdfs pdfs' : Py.dict (option string)) :
  extract_pdfs_loop urljoin base_url ts pdfs = Some pdfs' ->
  NoDup (Py.keys pdfs) ->
  NoDup (Py.keys pdfs').
Proof.
  revert pdfs. induction ts as [|t ts IH]; intros pdfs; simpl.
  - now intros [= <-].
  - destruct (candidate urljoin base_url t) as [|absolute ctx|];
      [apply IH| |discriminate].
    intros H Hnd. apply (IH _ H). unfold Py.setdefault.
    destruct (Py.mem pdfs absolute); [assumption|]. now apply NoDup_keys_set.
Qed.

Lemma get_observed_pdfs (result : FetchResult) (u : string) :
  Py.get (observed_pdfs result) u = Py.get (observed_entries result) u.
Proof.
  unfold observed_pdfs, observed_entries.
  destruct (detected_pdfs_truthy result); [|reflexivity].
  now rewrite get_observed_loop, get_labelled.
Qed.

(** [_extract_pdfs] is the list of both rules' entries merged by URL, the
    first entry of each URL kept. *)
Lemma get_extract_pdfs (result : FetchResult)
    (pdfs : list (string * option string)) (u : string) :
  _extract_pdfs urljoin result = Some pdfs ->
  Py.get pdfs u
  = Py.get (observed_entries result ++ dom_entries urljoin result) u.
Proof.
  unfold _extract_pdfs, dom_entries. intros H.
  rewrite (get_extract_pdfs_loop _ _ _ _ u H), get_app, get_observed_pdfs.
  reflexivity.
Qed.

Lemma NoDup_extract_pdfs (result : FetchResult)
    (pdfs : list (string * option string)) :
  _extract_pdfs urljoin result = Some pdfs -> NoDup (Py.keys pdfs).
Proof.
  unfold _extract_pdfs. intros H. apply (NoDup_extract_pdfs_loop _ _ _ _ H).
  unfold observed_pdfs. destruct (detected_pdfs_truthy result); [|constructor].
  apply NoDup_observed_loop. constructor.
Qed.

Lemma observed_entries_get (result : FetchResult) (u : string) :
  detected_pdfs_truthy result = true ->
  In u (Py.values (default [] (detected_pdfs result))) ->
  Py.get (observed_entries result) u = Some (Some network_label).
Proof.
  intros Ht Hin. unfold observed_entries. rewrite Ht, get_labelled.
  now rewrite bool_decide_eq_true_2 by now apply list_elem_of_In.
Qed.

(** [_extract_pdfs] returns unless a tag makes [urljoin] or [urldefrag]
    raise, and raises if one does. *)
Lemma extract_pdfs_returns (result : FetchResult) :
  (forall t, In t (document_tags (content result)) ->
             candidate urljoin (final_url result) t <> Fails) ->
  exists pdfs, _extract_pdfs urljoin result = Some pdfs.
Proof. apply extract_pdfs_loop_returns. Qed.

Lemma extract_pdfs_raises (result : FetchResult) (t : tag) :
  In t (document_tags (content result)) ->
  candidate urljoin (final_url result) t = Fails ->
  _extract_pdfs urljoin result = None.
Proof. apply extract_pdfs_loop_raises. Qed.

End ExtractPdfs.

(** C6: when a URL observed on the network is also the resolved URL of a
    candidate of the document tree, the list that [_extract_pdfs] returns
    gives it the fixed network label; the list has one entry per URL, and
    each URL has the context of its first entry in the sequence of
    network-observed entries followed by the candidates of the tree. *)
Theorem extract_pdfs_network_context_wins
    (urljoin : string -> string -> option string)
    (result : FetchResult) (pdfs : list (string * option string))
    (observed : Py.dict string) (key u : string) (ctx : option string) :
  _extract_pdfs urljoin result = Some pdfs ->
  detected_pdfs result = Some observed ->
  In (key, u) observed ->
  In (u, ctx) (dom_entries urljoin result) ->
  Py.get pdfs u = Some (Some network_label)
  /\ NoDup (Py.keys pdfs)
  /\ (forall u', Py.get pdfs u'
                 = Py.get (observed_entries result ++ dom_entries urljoin result) u').
Proof.
  intros Hp Hd Hin _.
  assert (Ht : detected_pdfs_truthy result = true).
  { unfold detected_pdfs_truthy. rewrite Hd.
    destruct observed; [destruct Hin | reflexivity]. }
  assert (Hv : In u (Py.values (default [] (detected_pdfs result)))).
  { rewrite Hd. simpl. unfold Py.values. now apply (in_map snd) in Hin. }
  split; [|split; [now apply (NoDup_extract_pdfs urljoin result)
                  |intros u'; now apply get_extract_pdfs]].
  now rewrite (get_extract_pdfs urljoin result pdfs u Hp), get_app,
    observed_entries_get.
Qed.

Lemma extract_pdfs_network_context_wins_witness :
  Py.get [("http://example.com/doc.pdf", Some network_label)]
    "http://example.com/doc.pdf"
  = Some (Some network_label)
  /\ NoDup (Py.keys [("http://example.com/doc.pdf", Some network_label)])
  /\ (forall u', Py.get [("http://example.com/doc.pdf", Some network_label)] u'
                 = Py.get (observed_entries Ex.rendered_page
                           ++ dom_entries Url.urljoin Ex.rendered_page) u').
Proof.
  apply (extract_pdfs_network_context_wins Url.urljoin Ex.rendered_page
           [("http://example.com/doc.pdf", Some network_label)]
           [("http://example.com/doc.pdf", "http://example.com/doc.pdf")]
           "http://example.com/doc.pdf" "http://example.com/doc.pdf"
           (Some "Report")).
  - reflexivity.
  - reflexivity.
  - left. reflexivity.
  - left. reflexivity.
Defined.

(** The tree's context is kept where the network saw nothing. *)
Example extract_pdfs_report_page :
  _extract_pdfs Url.urljoin Ex.report_page
  = Some [("http://example.com/doc.pdf", Some "Report")].
Proof. reflexivity. Qed.

Example extract_pdfs_rendered_page :
  _extract_pdfs Url.urljoin Ex.rendered_page
  = Some [("http://example.com/doc.pdf", Some network_label)].
Proof. reflexivity. Qed.

(** A candidate of the document tree is an entry of the result. *)
Lemma candidate_in_extract_pdfs (urljoin : string -> string -> option string)
    (result : FetchResult) (pdfs : list (string * option string)) (t : tag)
    (absolute : string) (ctx : option string) :
  _extract_pdfs urljoin result = Some pdfs ->
  In t (document_tags (content result)) ->
  candidate urljoin (final_url result) t = Entry absolute ctx ->
  In absolute (Py.keys pdfs).
Proof.
  intros Hp Ht Hc. apply mem_keys, mem_get.
  assert (Hin : In (absolute, ctx) (dom_entries urljoin result)).
  { unfold dom_entries. apply in_flat_map. exists t. split; [assumption|].
    rewrite Hc. now left. }
  rewrite (get_extract_pdfs urljoin result pdfs absolute Hp), get_app.
  destruct (Py.get (observed_entries result) absolute); [eauto|].
  destruct (Py.get (dom_entries urljoin result) absolute) eqn:E; [eauto|].
  exfalso. apply In_get in Hin as [v Hv]. congruence.
Qed.

(** ** The storage *)

Section Actions.
Context {A B : Type}.
Variable P : event -> Prop.

Lemma grows_ret (a : A) : grows P (ret a).
Proof. intros log. exists []. split; [reflexivity|constructor]. Qed.

Lemma grows_call (c : storage_call) (answer : list event -> option A) :
  P (Storage c) -> grows P (call c answer).
Proof.
  intros H log. exists [Storage c]. split; [reflexivity|]. now constructor.
Qed.

Lemma grows_bind (m : io A) (k : A -> io B) :
  grows P m -> (forall a, grows P (k a)) -> grows P (bind m k).
Proof.
  intros Hm Hk log. unfold bind. destruct (Hm log) as (new & Hnew & HP).
  destruct (m log) as [[a|] log1]; simpl in Hnew; subst log1.
  - destruct (Hk a (new ++ log)) as (new' & Hnew' & HP').
    exists (new' ++ new). rewrite Hnew', app_assoc. split; [reflexivity|].
    apply Forall_app. auto.
  - exists new. auto.
Qed.

(** An action that returns has run both of its parts. *)
Lemma bind_returns (m : io A) (k : A -> io B) (log log' : list event) (b : B) :
  bind m k log = (Some b, log') ->
  exists a log1, m log = (Some a, log1) /\ k a log1 = (Some b, log').
Proof.
  unfold bind. destruct (m log) as [[a|] log1]; [eauto|discriminate].
Qed.

End Actions.

(** Each call of the storage logs events of its own URL. *)
Ltac storage_grows :=
  repeat first
    [ apply grows_ret
    | apply grows_call; first [exact I | reflexivity]
    | apply grows_bind; [|intros ?]
    | match goal with
      | |- grows _ (if ?b then _ else _) => destruct b
      | |- grows _ (write_body _ _ _) =>
          intros ?; eexists [_]; split; [reflexivity|];
          constructor; [reflexivity|constructor]
      | |- grows _ (extract_pdf_title _ _) =>
          intros ?; eexists [_]; split; [reflexivity|];
          constructor; [exact I|constructor]
      end ].

Section Storage.
Variable env : Env.
Variable base_dir : Path.

Lemma grows_save_pdf (url source : string) :
  grows (storage_event url) (save_pdf env base_dir url source).
Proof.
  unfold save_pdf, _domain_directory, ensure_directory, existing_stems.
  storage_grows.
Qed.

Lemma grows_build_document (url source : string) (ctx : option string) :
  grows (storage_event url) (build_document env base_dir url source ctx).
Proof.
  unfold build_document, existing_stems.
  apply grows_bind; [apply grows_save_pdf|intros saved_path]. storage_grows.
Qed.

(** The first thing [save_pdf] does is to ask for the URL. *)
Lemma save_pdf_asks (url source : string) (log : list event) :
  exists new,
    snd (save_pdf env base_dir url source log)
    = new ++ Storage (Download url) :: log
    /\ Forall (storage_event url) new.
Proof.
  unfold save_pdf, bind at 1, call.
  destruct (pdf_get env log url) as [[]|]; [|exists []; split; [reflexivity|constructor]].
  match goal with
  | |- context [?m (Storage (Download url) :: log)] =>
      assert (H : grows (storage_event url) m)
  end.
  { unfold _domain_directory, ensure_directory, existing_stems. storage_grows. }
  apply H.
Qed.

(** [save_pdf] returns the file it has written in full. *)
Lemma save_pdf_returns (url source : string) (log log' : list event)
    (target : Path) :
  save_pdf env base_dir url source log = (Some target, log') ->
  exists older, log' = Storage (FileWrite url target Written) :: older.
Proof.
  unfold save_pdf.
  intros (_ & log1 & _ & H)%bind_returns.
  apply bind_returns in H as (domain_dir & log2 & _ & H).
  apply bind_returns in H as (existing_names & log3 & _ & H).
  apply bind_returns in H as ([] & log4 & Hw & H).
  unfold ret in H. injection H as <- <-.
  unfold write_body in Hw.
  destruct (fs_write env log3 _) eqn:E; try discriminate.
  injection Hw as <-. eauto.
Qed.

(** The first thing [build_document] does is to ask for the URL. *)
Lemma build_document_asks (url source : string) (ctx : option string)
    (log : list event) :
  exists new,
    snd (build_document env base_dir url source ctx log)
    = new ++ Storage (Download url) :: log
    /\ Forall (storage_event url) new.
Proof.
  unfold build_document, bind at 1.
  destruct (save_pdf_asks url source log) as (new & Hnew & HP).
  destruct (save_pdf env base_dir url source log) as [[saved_path|] log1];
    simpl in Hnew; subst log1; [|eauto].
  match goal with
  | |- context [?m (new ++ Storage (Download url) :: log)] =>
      assert (H : grows (storage_event url) m)
  end.
  { unfold existing_stems. storage_grows. }
  destruct (H (new ++ Storage (Download url) :: log)) as (new' & -> & HP').
  exists (new' ++ new). rewrite <- app_assoc. split; [reflexivity|].
  apply Forall_app. auto.
Qed.

(** The document [build_document] returns is the one asked for, and its
    download was written in full. *)
Lemma build_document_returns (url source : string) (ctx : option string)
    (log log' : list event) (document : PDFDocument) :
  build_document env base_dir url source ctx log = (Some document, log') ->
  doc_url document = url
  /\ source_page document = source
  /\ context document = ctx
  /\ exists new target older,
       log' = new ++ Storage (FileWrite url target Written) :: older.
Proof.
  unfold build_document.
  intros (saved_path & log1 & Hs & H)%bind_returns.
  apply save_pdf_returns in Hs as (older & ->).
  match type of H with
  | ?m _ = _ => assert (Hg : grows (storage_event url) m)
  end.
  { unfold existing_stems. storage_grows. }
  destruct (Hg (Storage (FileWrite url saved_path Written) :: older))
    as (new & Hnew & _).
  rewrite H in Hnew. simpl in Hnew.
  apply bind_returns in H as (size & log2 & _ & H).
  apply bind_returns in H as (title & log3 & _ & H).
  apply bind_returns in H as (final_path & log4 & _ & H).
  unfold ret in H. injection H as <- <-. simpl. eauto 10.
Qed.

End Storage.

(** ** The document registry *)

Arguments register : simpl never.


(** The calls of the storage for one URL ask for no other. *)
Lemma downloads_storage_event (u url : string) (new : list event) :
  Forall (storage_event url) new -> u <> url -> downloads u new = 0%nat.
Proof.
  intros H Hne. induction H as [|e new He _ IH]; simpl; [reflexivity|].
  destruct e as [| | |[]|]; simpl in *; try assumption.
  subst. destruct (String.eqb_spec url u); [congruence|assumption].
Qed.

Lemma scheduled_app (new log : list event) :
  scheduled (new ++ log) = scheduled new ++ scheduled log.
Proof.
  induction new as [|e new IH]; simpl; [reflexivity|].
  destruct e; simpl; rewrite IH; reflexivity.
Qed.

Lemma scheduled_storage_event (url : string) (new : list event) :
  Forall (storage_event url) new -> scheduled new = [].
Proof.
  induction 1 as [|e new He _ IH]; simpl; [reflexivity|].
  destruct e; simpl in *; tauto.
Qed.

Lemma completed_urls_app (new log : list event) (u : string) :
  In u (completed_urls (new ++ log))
  <-> In u (completed_urls new) \/ In u (completed_urls log).
Proof.
  induction new as [|e new IH]; simpl; [tauto|].
  destruct e as [| | |[| | |? ? []| | | |]|]; simpl; tauto.
Qed.

Section Registry.
Variable env : Env.
Variable result : FetchResult.


(** The log after [register]: the storage is called for the URL, if it is
    not registered, and for no other. *)
Lemma register_log (self : CrawlSession) (u : string) (ctx : option string) :
  exists new,
    events (register env result self (u, ctx)) = new ++ events self
    /\ Forall (storage_event u) new
    /\ (Py.mem (downloaded self) u = true -> new = [])
    /\ (Py.mem (downloaded self) u = false ->
        exists new', new = new' ++ [Storage (Download u)]).
Proof.
  unfold register. destruct (Py.mem (downloaded self) u) eqn:Hm.
  - exists []. repeat split; auto. discriminate.
  - destruct (build_document_asks env (output_dir (config self)) u
                (final_url result) ctx (events self)) as (new & Hnew & HP).
    exists (new ++ [Storage (Download u)]).
    split; [|split; [|split; [discriminate|eauto]]].
    + rewrite <- app_assoc. simpl. rewrite <- Hnew.
      now destruct (build_document _ _ _ _ _ _) as [[d|] log].
    + apply Forall_app. split; [assumption|]. now repeat constructor.
Qed.

(** What [register] leaves alone. *)
Lemma register_frame (self : CrawlSession) (pdf : string * option string) :
  let self' := register env result self pdf in
  config self' = config self
  /\ playwright_fetcher self' = playwright_fetcher self
  /\ visited self' = visited self
  /\ allowed_domains self' = allowed_domains self
  /\ robots_cache self' = robots_cache self
  /\ scheduled (events self') = scheduled (events self)
  /\ (forall e, In e (events self') -> In e (events self) \/ fetched_url e = None)
  /\ (forall e, In e (events self) -> In e (events self')).
Proof.
  destruct pdf as [u ctx]. cbv zeta.
  destruct (register_log self u ctx) as (new & Hnew & HP & _).
  rewrite Hnew, scheduled_app, (scheduled_storage_event u new HP).
  unfold register. destruct (Py.mem (downloaded self) u); [|
    destruct (build_document _ _ _ _ _ _) as [[d|] log]]; simpl;
    (repeat split; auto; [|intros e He; apply in_or_app; auto]);
    intros e [He|He]%in_app_or; auto; right;
    rewrite Forall_forall in HP; apply list_elem_of_In in He;
    specialize (HP e He); destruct e; simpl in *; tauto.
Qed.

(** A URL enters the registry only with a download written in full. *)
Lemma register_mem (self : CrawlSession) (pdf : string * option string)
    (u : string) :
  Py.mem (downloaded (register env result self pdf)) u = true ->
  Py.mem (downloaded self) u = true
  \/ (fst pdf = u
      /\ In u (completed_urls (events (register env result self pdf)))).
Proof.
  destruct pdf as [k ctx]. unfold register.
  destruct (Py.mem (downloaded self) k) eqn:Hk; [auto|].
  destruct (build_document _ _ _ _ _ _) as [[d|] log] eqn:Hb; simpl; [|auto].
  intros H. destruct (decide (k = u)) as [->|Hne].
  - right. split; [reflexivity|].
    apply build_document_returns in Hb as (_ & _ & _ & new & target & older & ->).
    apply completed_urls_app. right. now left.
  - left. apply mem_get in H as [v Hv]. rewrite get_set_ne in Hv by assumption.
    apply mem_get. eauto.
Qed.

(** An unregistered URL is handed to the storage. *)
Lemma register_unknown (self : CrawlSession) (u : string) (ctx : option string) :
  Py.mem (downloaded self) u = false ->
  exists new,
    events (register env result self (u, ctx))
    = new ++ Storage (Download u) :: events self.
Proof.
  intros H. destruct (register_log self u ctx) as (new & Hnew & _ & _ & Hask).
  destruct (Hask H) as (new' & ->). exists new'.
  now rewrite Hnew, <- app_assoc.
Qed.

Lemma fold_register_events (pdfs : list (string * option string))
    (self : CrawlSession) (e : event) :
  In e (events self) -> In e (events (fold_left (register env result) pdfs self)).
Proof.
  revert self. induction pdfs as [|pdf pdfs IH]; intros self H; simpl; [assumption|].
  apply IH. now apply register_frame.
Qed.

(** Every entry of [pdfs] is registered already or handed to the storage. *)
Lemma fold_register_attempts (pdfs : list (string * option string))
    (self : CrawlSession) (u : string) :
  In u (Py.keys pdfs) ->
  Py.mem (downloaded self) u = true
  \/ In (Storage (Download u))
        (events (fold_left (register env result) pdfs self)).
Proof.
  revert self. induction pdfs as [|[k ctx] pdfs IH]; intros self; simpl; [tauto|].
  intros [->|Hin].
  - destruct (Py.mem (downloaded self) u) eqn:Hm; [auto|]. right.
    destruct (register_unknown self u ctx Hm) as [new Hs].
    apply (fold_register_events pdfs (register env result self (u, ctx))).
    rewrite Hs. apply in_or_app. right. now left.
  - destruct (IH (register env result self (k, ctx)) Hin) as [Hm|He]; [|auto].
    destruct (Py.mem (downloaded self) u) eqn:Hu; [auto|]. right.
    apply register_mem in Hm as [Hm|[Hk _]]; [congruence|]. simpl in Hk. subst k.
    destruct (register_unknown self u ctx Hu) as [new Hs].
    apply (fold_register_events pdfs (register env result self (u, ctx))).
    rewrite Hs. apply in_or_app. right. now left.
Qed.

End Registry.

(** C10: when [build_document] raises for a URL that is not registered,
    at whatever point of its work, the registry is left as it was and the
    URL stays unregistered; the storage was asked for the URL; and in any
    later state of the session in which the URL is still unregistered, a
    discovery of it, from whatever page and with whatever context, asks the
    storage for it again. *)
Theorem register_failure_not_recorded (env : Env) (result : FetchResult)
    (self : CrawlSession) (pdf_url : string) (ctx : option string) :
  Py.mem (downloaded self) pdf_url = false ->
  fst (build_document env (output_dir (config self)) pdf_url (final_url result)
         ctx (events self)) = None ->
  let self' := register env result self (pdf_url, ctx) in
  downloaded self' = downloaded self
  /\ Py.mem (downloaded self') pdf_url = false
  /\ (exists new,
        events self' = new ++ Storage (Download pdf_url) :: events self)
  /\ forall later result' ctx',
       Py.mem (downloaded later) pdf_url = false ->
       exists new,
         events (register env result' later (pdf_url, ctx'))
         = new ++ Storage (Download pdf_url) :: events later.
Proof.
  intros Hm Hs. cbv zeta.
  assert (E : downloaded (register env result self (pdf_url, ctx))
              = downloaded self).
  { unfold register. rewrite Hm.
    destruct (build_document _ _ _ _ _ _) as [[d|] log]; [discriminate|reflexivity]. }
  rewrite E. repeat split; try assumption.
  - now apply register_unknown.
  - intros later result' ctx' Hd. now apply register_unknown.
Qed.

(** On the disk of [Ex.env_flaky] the download is written and the reading
    of its size raises. *)
Lemma register_failure_not_recorded_witness :
  let self' := register Ex.env_flaky Ex.report_page Ex.session1
                 ("http://example.com/doc.pdf", Some "Report") in
  downloaded self' = downloaded Ex.session1
  /\ Py.mem (downloaded self') "http://example.com/doc.pdf" = false
  /\ (exists new,
        events self'
        = new ++ Storage (Download "http://example.com/doc.pdf")
                 :: events Ex.session1)
  /\ forall later result' ctx',
       Py.mem (downloaded later) "http://example.com/doc.pdf" = false ->
       exists new,
         events (register Ex.env_flaky result' later ("http://example.com/doc.pdf", ctx'))
         = new ++ Storage (Download "http://example.com/doc.pdf") :: events later.
Proof.
  apply (register_failure_not_recorded Ex.env_flaky Ex.report_page Ex.session1
           "http://example.com/doc.pdf" (Some "Report")); reflexivity.
Defined.

(** What that call leaves in the log: the file is written, its size is not
    read. *)
Example register_flaky_log :
  events (register Ex.env_flaky Ex.report_page Ex.session1
            ("http://example.com/doc.pdf", Some "Report"))
  = [Storage (Stat ["downloads"; "example.com"; "doc.pdf"]);
     Storage (FileWrite "http://example.com/doc.pdf"
                ["downloads"; "example.com"; "doc.pdf"] Written);
     Storage (Glob ["downloads"; "example.com"]);
     Storage (MakeDir ["downloads"; "example.com"]);
     Storage (Download "http://example.com/doc.pdf");
     Storage (MakeDir ["downloads"])].
Proof. reflexivity. Qed.

(** C9 (the claim needs a condition): whatever the session's allowed
    domains, when no reference of the page makes [urljoin] or [urldefrag]
    raise, [_extract_pdfs] returns, a reference of an [a], [iframe],
    [embed] or [object] tag whose resolved URL ends in [.pdf], or whose
    [type] is [application/pdf], is an entry of what it returns, and
    [_process] asks the storage for it unless it is registered already. *)
Theorem extract_pdfs_ignores_allowed_domains
    (urljoin : string -> string -> option string)
    (env : Env) (self : CrawlSession) (task : PageTask) (queue : list PageTask)
    (result : FetchResult) (t : tag) (ref absolute : string) :
  (forall t', In t' (document_tags (content result)) ->
              candidate urljoin (final_url result) t' <> Fails) ->
  In t (Soup.tags (content result)) ->
  In (tag_name t) ["a"; "iframe"; "embed"; "object"] ->
  url_attr t = Some ref ->
  Py.truthy ref = true ->
  absolute_url urljoin (final_url result) ref = Some absolute ->
  Py.endswith (Py.lower absolute) ".pdf" = true
    \/ Soup.get t "type" = Some "application/pdf" ->
  exists pdfs,
    _extract_pdfs urljoin result = Some pdfs
    /\ In absolute (Py.keys pdfs)
    /\ (Py.mem (downloaded self) absolute = true
        \/ In (Storage (Download absolute))
             (events (fst (process_result urljoin env self task result queue)))).
Proof.
  intros Hok Ht Hn Ha Hr Habs Hpdf.
  destruct (extract_pdfs_returns urljoin result Hok) as [pdfs Hp].
  exists pdfs. split; [assumption|].
  assert (Hc : candidate urljoin (final_url result) t
               = Entry absolute (_describe_context t)).
  { unfold candidate. rewrite Ha. destruct ref as [|c a]; [discriminate|].
    rewrite Habs. destruct Hpdf as [-> | ->]; [reflexivity|].
    rewrite bool_decide_eq_true_2 by reflexivity. now rewrite andb_false_r. }
  assert (Hd : In t (document_tags (content result))).
  { unfold document_tags, Soup.find_all. apply filter_In. split; [assumption|].
    unfold Soup.name_in. apply existsb_exists. exists (tag_name t).
    split; [assumption | apply String.eqb_refl]. }
  pose proof (candidate_in_extract_pdfs urljoin result pdfs t _ _ Hp Hd Hc) as Hin.
  split; [assumption|]. unfold process_result. rewrite Hp. simpl.
  now apply fold_register_attempts.
Qed.

(** The reference of [Ex.offsite_page] is on a host that is not allowed. *)
Lemma extract_pdfs_ignores_allowed_domains_witness :
  _is_same_domain Ex.session1 "http://cdn.other.org/files/Manual.PDF" = Some false
  /\ exists pdfs,
       _extract_pdfs Url.urljoin Ex.offsite_page = Some pdfs
       /\ In "http://cdn.other.org/files/Manual.PDF" (Py.keys pdfs)
       /\ (Py.mem (downloaded Ex.session1) "http://cdn.other.org/files/Manual.PDF"
           = true
           \/ In (Storage (Download "http://cdn.other.org/files/Manual.PDF"))
                (events (fst (process_result Url.urljoin Ex.env_down Ex.session1
                                (mkPageTask "http://example.com/" 0)
                                Ex.offsite_page [])))).
Proof.
  split; [reflexivity|].
  apply (extract_pdfs_ignores_allowed_domains Url.urljoin Ex.env_down Ex.session1
           (mkPageTask "http://example.com/" 0) [] Ex.offsite_page Ex.offsite_link
           "http://cdn.other.org/files/Manual.PDF"
           "http://cdn.other.org/files/Manual.PDF").
  - intros t' [<-|[]]. vm_compute. discriminate.
  - left. reflexivity.
  - left. reflexivity.
  - reflexivity.
  - reflexivity.
  - reflexivity.
  - left. reflexivity.
Defined.

(** C9, the case the claim leaves out: the page of [Ex.offsite_page] with
    one more anchor, whose [href] opens a bracket and does not close it.
    The anchor to the PDF is a candidate as before, but [urljoin] raises on
    the other [href], [_extract_pdfs] returns nothing, and [_process] ends
    there: nothing is handed to the storage and no link is queued.  A
    crawl of a site of such pages ends with no document. *)
Theorem extract_pdfs_raises_on_malformed_href :
  (exists t,
     In t (document_tags (content Ex.broken_page))
     /\ candidate Url.urljoin (final_url Ex.broken_page) t
        = Entry "http://cdn.other.org/files/Manual.PDF" (Some "Manual"))
  /\ Url.urljoin "http://example.com/" "http://[::1" = None
  /\ _extract_pdfs Url.urljoin Ex.broken_page = None
  /\ process_result Url.urljoin Ex.env_site Ex.session1
       (mkPageTask "http://example.com/" 0) Ex.broken_page []
     = (Ex.session1, [])
  /\ exists st,
       crawl Url.urljoin Ex.env_broken Ex.config1 true 40 = Some ([], st)
       /\ events (session st)
          = [HttpGet "http://example.com/"; RobotsRead "http://example.com";
             CreateTask (mkPageTask "http://example.com/" 0);
             Storage (MakeDir ["downloads"])].
Proof.
  split; [|split; [|split; [|split]]].
  - eexists. split; [left; reflexivity|reflexivity].
  - reflexivity.
  - reflexivity.
  - reflexivity.
  - eexists. split; vm_compute; reflexivity.
Qed.

(** ** Extraction of links *)

Section ExtractLinks.
Variable urljoin : string -> string -> option string.

Lemma extract_links_loop_spec (self : CrawlSession) (base_url : string)
    (ts : list tag) (seen : gset string) :
  NoDup (fst (extract_links_loop urljoin self base_url ts seen))
  /\ forall link,
       In link (fst (extract_links_loop urljoin self base_url ts seen)) ->
       (link ∉ seen)
       /\ Py.contains "#" link = false
       /\ (exists netloc,
             Url.netloc link = Some netloc /\ netloc ∈ allowed_domains self)
       /\ exists t, In t ts /\ link_of urljoin base_url link t.
Proof.
  revert seen. induction ts as [|t ts IH]; intros seen; simpl.
  - split; [constructor | tauto].
  - assert (Hrest : forall seen',
              (forall link, link ∉ seen' -> link ∉ seen) ->
              NoDup (fst (extract_links_loop urljoin self base_url ts seen'))
              /\ forall link,
                   In link (fst (extract_links_loop urljoin self base_url ts seen')) ->
                   (link ∉ seen)
                   /\ Py.contains "#" link = false
                   /\ (exists netloc,
                         Url.netloc link = Some netloc
                         /\ netloc ∈ allowed_domains self)
                   /\ exists t', In t' (t :: ts) /\ link_of urljoin base_url link t').
    { intros seen' Hsub. destruct (IH seen') as [Hnd Hall]. split; [assumption|].
      intros link Hin. destruct (Hall link Hin) as (?&?&?&t'&?&?).
      repeat split; auto. exists t'. split; [now right|assumption]. }
    destruct ((Py.startswith _ "mailto:") || (Py.startswith _ "javascript:")) eqn:Hs;
      [now apply Hrest|].
    apply orb_false_elim in Hs as [Hm Hj].
    destruct (absolute_url urljoin base_url _) as [absolute|] eqn:Habs;
      [|simpl; split; [constructor|tauto]].
    unfold _is_same_domain.
    destruct (Url.netloc absolute) as [netloc|] eqn:Hn;
      [|simpl; split; [constructor|tauto]].
    cbn [mbind option_bind].
    destruct (bool_decide (netloc ∈ allowed_domains self)
              && negb (bool_decide (absolute ∈ seen))) eqn:Hc;
      [|now apply Hrest].
    apply andb_true_iff in Hc as [Hd Hseen].
    apply bool_decide_eq_true in Hd.
    apply negb_true_iff, bool_decide_eq_false in Hseen.
    destruct (Hrest ({[absolute]} ∪ seen)) as [Hnd Hall].
    { intros link Hl Hs. apply Hl, elem_of_union_r, Hs. }
    destruct (IH ({[absolute]} ∪ seen)) as [_ Hall'].
    destruct (extract_links_loop urljoin self base_url ts ({[absolute]} ∪ seen))
      as [links e]. simpl in *. split.
    + apply NoDup_cons. split; [|assumption].
      intros Hin%list_elem_of_In. destruct (Hall' _ Hin) as [Hno _].
      apply Hno, elem_of_union_l, elem_of_singleton. reflexivity.
    + intros link [<-|Hin]; [|now apply Hall].
      repeat split; try assumption.
      * unfold absolute_url in Habs.
        destruct (urljoin base_url _) as [joined|]; [|discriminate].
        now apply (urldefrag_no_fragment joined).
      * eauto.
      * exists t. split; [now left|]. now repeat split.
Qed.

Lemma extract_links_spec (self : CrawlSession) (result : FetchResult) :
  NoDup (fst (_extract_links urljoin self result))
  /\ forall link, In link (fst (_extract_links urljoin self result)) ->
       Py.contains "#" link = false
       /\ (exists netloc,
             Url.netloc link = Some netloc /\ netloc ∈ allowed_domains self)
       /\ exists t, In t (anchors (content result))
                    /\ link_of urljoin (final_url result) link t.
Proof.
  unfold _extract_links.
  destruct (extract_links_loop_spec self (final_url result)
              (anchors (content result)) ∅) as [Hnd Hall].
  split; [assumption|]. intros link Hin.
  destruct (Hall link Hin) as (_&?&?&?). auto.
Qed.

End ExtractLinks.

Example extract_links_scheme_page :
  _extract_links Url.urljoin Ex.session1 Ex.scheme_page
  = (["JAVASCRIPT://example.com/%0Aalert(1)"; "Mailto://example.com";
      "http://example.com/about"], Exhausted).
Proof. vm_compute. reflexivity. Qed.

(** The generator yields up to the [href] on which [urljoin] raises. *)
Example extract_links_broken_page :
  _extract_links Url.urljoin Ex.session1 Ex.broken_page
  = (["http://example.com/next"], Raised).
Proof. vm_compute. reflexivity. Qed.

(** ** What the steps of a task keep *)

Lemma In_list_insert {A} (l : list A) (i : nat) (x y : A) :
  In x (<[i:=y]> l) -> x = y \/ In x l.
Proof.
  revert i. induction l as [|a l IH]; intros [|i]; simpl; try tauto.
  - intros [<-|H]; auto.
  - intros [<-|H]; auto. destruct (IH i H); auto.
Qed.

Lemma In_list_delete {A} (l : list A) (i : nat) (x : A) :
  In x (delete i l) -> In x l.
Proof.
  revert i. induction l as [|a l IH]; intros [|i]; simpl; try tauto.
  intros [<-|H]; eauto.
Qed.

Lemma In_list_lookup {A} (l : list A) (i : nat) (x : A) :
  l !! i = Some x -> In x l.
Proof. intros H. apply list_elem_of_In, list_elem_of_lookup. eauto. Qed.

Lemma steady_refl (self : CrawlSession) : steady self self.
Proof. unfold steady. tauto. Qed.

Lemma steady_trans (s1 s2 s3 : CrawlSession) :
  steady s1 s2 -> steady s2 s3 -> steady s1 s3.
Proof.
  intros (A1&A2&A3&A4&A5&A6) (B1&B2&B3&B4&B5&B6).
  unfold steady. rewrite B1, B2, B3, B4. tauto.
Qed.

(** Page fetches for scheduled URLs may be added to a log. *)
Lemma fetches_follow_app (new log : list event) :
  scheduled new = [] ->
  (forall e url, In e new -> fetched_url e = Some url ->
                 In url (scheduled_urls log)) ->
  fetches_follow_creation log ->
  fetches_follow_creation (new ++ log).
Proof.
  intros Hs Hf Hlog. induction new as [|e new IH]; simpl; [assumption|].
  assert (Hs' : scheduled new = []).
  { destruct e; simpl in Hs; congruence. }
  split; [|apply IH; [assumption|intros; eapply Hf; [right|]; eassumption]].
  destruct (fetched_url e) as [url|] eqn:E; [|exact I].
  unfold scheduled_urls. rewrite scheduled_app, Hs'. simpl.
  apply (Hf e url); [now left|assumption].
Qed.

(** A session that differs by such events only is steady. *)
Lemma steady_grows (self self' : CrawlSession) (new : list event) :
  config self' = config self ->
  visited self' = visited self ->
  allowed_domains self' = allowed_domains self ->
  downloaded self' = downloaded self ->
  events self' = new ++ events self ->
  scheduled new = [] ->
  (forall e url, In e new -> fetched_url e = Some url ->
                 In url (scheduled_urls (events self))) ->
  steady self self'.
Proof.
  intros Hc Hv Ha Hd He Hs Hf. unfold steady, registry_ok.
  rewrite Hc, Hv, Ha, Hd, He, scheduled_app, Hs. simpl.
  repeat (split; [reflexivity|]). split.
  - intros (H1 & H2 & H3). repeat split; auto.
    intros k Hk. apply completed_urls_app. auto.
  - now apply fetches_follow_app.
Qed.

Section Steps.
Variable env : Env.

(** [StaticFetcher.fetch] asks until an answer comes, [n] times at most. *)
Lemma static_fetch_attempts (n : nat) (log : list event) (url : string) :
  exists k,
    snd (StaticFetcher_fetch env n log url) = repeat (HttpGet url) k ++ log
    /\ (k <= n)%nat
    /\ (fst (StaticFetcher_fetch env n log url) = None -> k = n)
    /\ (forall r, fst (StaticFetcher_fetch env n log url) = Some r ->
          (1 <= k)%nat
          /\ exists response,
               session_get env (repeat (HttpGet url) (k - 1) ++ log) url
               = Some response
               /\ r = static_result url response)
    /\ (forall j, (j < k - 1)%nat ->
          session_get env (repeat (HttpGet url) j ++ log) url = None).
Proof.
  revert log. induction n as [|n IH]; intros log; simpl.
  - exists 0%nat. simpl. split; [reflexivity|]. split; [lia|].
    split; [reflexivity|]. split; [discriminate | lia].
  - destruct (session_get env log url) as [response|] eqn:E; simpl.
    + exists 1%nat. simpl. split; [reflexivity|]. split; [lia|].
      split; [discriminate|]. split; [|lia].
      intros r [= <-]. split; [lia|]. exists response. auto.
    + destruct (IH (HttpGet url :: log)) as (k & H1 & H2 & H3 & H4 & H5).
      assert (Hshift : forall j, repeat (HttpGet url) j ++ HttpGet url :: log
                                 = repeat (HttpGet url) (S j) ++ log).
      { intros j. induction j as [|j IHj]; simpl; [reflexivity|]. now f_equal. }
      exists (S k). rewrite H1, Hshift. split; [reflexivity|]. split; [lia|].
      split; [intros Hn; f_equal; auto|]. split.
      * intros r Hr. destruct (H4 r Hr) as (Hk & response & Hg & ->).
        split; [lia|]. exists response. split; [|reflexivity].
        rewrite Hshift in Hg. replace (S k - 1)%nat with (S (k - 1)) by lia.
        exact Hg.
      * intros j Hj. destruct j as [|j]; [exact E|].
        rewrite <- Hshift. apply H5. lia.
Qed.

Lemma fetch_static_steady (self : CrawlSession) (url : string) :
  In url (scheduled_urls (events self)) ->
  steady self (snd (fetch_static env self url)).
Proof.
  intros Hin. unfold fetch_static.
  destruct (static_fetch_attempts (Z.to_nat (retries (config self) + 1))
              (events self) url) as (k & Hk & _).
  destruct (StaticFetcher_fetch env _ (events self) url) as [result log].
  simpl in *. apply (steady_grows _ _ (repeat (HttpGet url) k)); auto.
  - clear. induction k; simpl; auto.
  - intros e u He%repeat_spec. subst e. now intros [= <-].
Qed.

Lemma fetch_dynamic_steady (self : CrawlSession) (url : string)
    (result : option FetchResult) :
  In url (scheduled_urls (events self)) ->
  steady self (snd (fetch_dynamic env self url result)).
Proof.
  intros Hin. unfold fetch_dynamic, PlaywrightFetcher_fetch.
  destruct (page_goto env (events self) url); simpl;
    apply (steady_grows _ _ [PlaywrightGoto url]); auto;
    intros e u [<-|[]] [= <-]; assumption.
Qed.

Lemma register_registry_ok (result : FetchResult) (self : CrawlSession)
    (pdf : string * option string) :
  registry_ok self -> registry_ok (register env result self pdf).
Proof.
  intros (Hnd & Hurl & Hsaved). destruct pdf as [u ctx].
  destruct (register_log env result self u ctx) as (new & Hnew & _).
  unfold registry_ok. rewrite Hnew. revert Hnew. unfold register.
  destruct (Py.mem (downloaded self) u) eqn:Hm.
  { intros _. repeat split; auto. intros k Hk. apply completed_urls_app. auto. }
  destruct (build_document _ _ _ _ _ _) as [[d|] log] eqn:Hb; simpl; intros Hlog.
  - apply build_document_returns in Hb
      as (Hd & _ & _ & new' & target & older & ->).
    split; [now apply NoDup_keys_set|]. split.
    + intros k d' [[-> ->]|Hin]%In_set; [assumption | auto].
    + intros k. rewrite keys_set, Hm. intros [Hk|[<-|[]]]%in_app_or.
      * apply completed_urls_app. auto.
      * rewrite <- Hlog. apply completed_urls_app. right. now left.
  - repeat split; auto. intros k Hk. apply completed_urls_app. auto.
Qed.

Lemma register_steady (result : FetchResult) (self : CrawlSession)
    (pdf : string * option string) :
  steady self (register env result self pdf).
Proof.
  destruct (register_frame env result self pdf) as (F1&_&F3&F4&_&F6&_).
  unfold steady. rewrite F1, F3, F4, F6.
  repeat (split; [reflexivity|]). split; [apply register_registry_ok|].
  destruct pdf as [u ctx].
  destruct (register_log env result self u ctx) as (new & -> & HP & _).
  apply fetches_follow_app; [now apply (scheduled_storage_event u)|].
  intros e url He Hf. rewrite Forall_forall in HP.
  apply list_elem_of_In in He. specialize (HP e He).
  destruct e; simpl in *; try tauto; discriminate.
Qed.

Lemma fold_register_steady (result : FetchResult)
    (pdfs : list (string * option string)) (self : CrawlSession) :
  steady self (fold_left (register env result) pdfs self).
Proof.
  revert self. induction pdfs as [|pdf pdfs IH]; intros self; simpl.
  - apply steady_refl.
  - eapply steady_trans; [apply register_steady | apply IH].
Qed.

Section Links.
Variable urljoin : string -> string -> option string.

Lemma is_allowed_steady (self : CrawlSession) (url : string) :
  steady self (snd (_is_allowed urljoin env self url)).
Proof.
  unfold _is_allowed.
  destruct (negb (respect_robots_txt (config self))); [apply steady_refl|].
  destruct (origin url) as [base|]; [|apply steady_refl].
  destruct (default None (robots_cache self !! base)); [apply steady_refl|].
  destruct (robots_url urljoin base) as [target|]; [|apply steady_refl].
  destruct (robots_read env (events self) _); simpl;
    apply (steady_grows _ _ [RobotsRead base]); auto;
    intros e u [<-|[]]; discriminate.
Qed.

(** The tasks [_process] appends come from yielded links not visited yet,
    one level below the task. *)
Lemma new_tasks_spec (self : CrawlSession) (task : PageTask)
    (result : FetchResult) (t : PageTask) :
  In t (new_tasks urljoin self task result) ->
  depth task < max_depth (config self)
  /\ depth t = depth task + 1
  /\ In (task_url t) (fst (_extract_links urljoin self result))
  /\ task_url t ∉ visited self.
Proof.
  unfold new_tasks. destruct (depth task <? max_depth (config self)) eqn:Hd;
    [|intros []].
  apply Z.ltb_lt in Hd. intros (link & <- & Hin)%in_map_iff.
  apply filter_In in Hin as [Hin Hv].
  apply negb_true_iff, bool_decide_eq_false in Hv. simpl. auto.
Qed.

Lemma new_tasks_ok (cfg : CrawlConfig) (self : CrawlSession) (task : PageTask)
    (result : FetchResult) (t : PageTask) :
  config self = cfg ->
  task_ok cfg task ->
  In t (new_tasks urljoin self task result) ->
  task_ok cfg t.
Proof.
  intros Hc [_ Hd] (Hlt & Hdt & Hin & _)%new_tasks_spec. split.
  - right. now apply (extract_links_spec urljoin self result).
  - subst cfg. lia.
Qed.

End Links.

End Steps.

(** ** The invariant holds in every state of a crawl *)

Arguments process_result : simpl never.
Arguments _is_allowed : simpl never.
Arguments fetch_static : simpl never.
Arguments fetch_dynamic : simpl never.

(** The state a crawl starts in. *)
Lemma run_init_state (env : Env) (cfg : CrawlConfig) (playwright : bool)
    (st : RunState) :
  run_init env cfg playwright = Some st ->
  exists netloc,
    Url.netloc (cfg_url cfg) = Some netloc
    /\ st = mkRunState
              (mkCrawlSession cfg playwright ∅ [] {[ netloc ]} ∅
                 [Storage (MakeDir (output_dir cfg))])
              [mkPageTask (cfg_url cfg) 0] [].
Proof.
  unfold run_init, CrawlSession_init, ensure_directory, call.
  destruct (fs_mkdir env [] (output_dir cfg)); [|discriminate].
  destruct (Url.netloc (cfg_url cfg)) as [netloc|]; [|discriminate].
  intros [= <-]. eauto.
Qed.

Section Invariant.
Variable urljoin : string -> string -> option string.
Variable env : Env.
Variable cfg : CrawlConfig.
Variable playwright : bool.

Lemma invariant_init (st : RunState) :
  run_init env cfg playwright = Some st -> crawl_invariant cfg st.
Proof.
  intros (netloc & Hn & ->)%run_init_state.
  split; simpl; try tauto; try reflexivity.
  - eauto.
  - constructor.
  - intros u. split; [intros []%not_elem_of_empty | intros []].
  - intros t [<-|[]]. split; simpl; [now left | lia].
  - repeat split; [constructor | intros k d [] | intros k []].
Qed.

Lemma invariant_steady (st : RunState) (self' : CrawlSession)
    (queue' : list PageTask) (tasks' : list (PageTask * stage)) :
  crawl_invariant cfg st ->
  steady (session st) self' ->
  (forall t, In t queue' -> task_ok cfg t) ->
  (forall t stg, In (t, stg) tasks' -> In t (scheduled (events (session st)))) ->
  crawl_invariant cfg (mkRunState self' queue' tasks').
Proof.
  intros
    [inv_config0 inv_domains0 inv_nodup0 inv_visited0 inv_queue0
     inv_scheduled0 inv_tasks0 inv_fetches0 inv_registry0]
    (S1&S2&S3&S4&S5&S6) Hq Ht.
  split; simpl; unfold scheduled_urls in *; rewrite ?S1, ?S2, ?S3, ?S4; auto.
Qed.

Lemma invariant_main_loop (st st' : RunState) :
  crawl_invariant cfg st -> main_loop st = Some st' -> crawl_invariant cfg st'.
Proof.
  intros Hinv. pose proof Hinv as
    [inv_config0 inv_domains0 inv_nodup0 inv_visited0 inv_queue0
     inv_scheduled0 inv_tasks0 inv_fetches0 inv_registry0].
  unfold main_loop. destruct (queue st) as [|task rest] eqn:Hq; [discriminate|].
  destruct (Z.of_nat (length (tasks st)) <? _); [|discriminate].
  assert (Hrest : forall t, In t rest -> task_ok cfg t).
  { intros t Ht. apply inv_queue0. now right. }
  assert (Htask : task_ok cfg task).
  { apply inv_queue0. now left. }
  destruct (bool_decide (task_url task ∈ visited (session st))) eqn:Hv;
    intros [= <-].
  - apply (invariant_steady st); auto using steady_refl.
  - apply bool_decide_eq_false in Hv.
    split; simpl; unfold scheduled_urls in *; simpl; auto.
    + apply NoDup_cons. split; [|assumption].
      intros Hin%list_elem_of_In. now apply Hv, inv_visited0.
    + intros u. rewrite elem_of_union, elem_of_singleton, inv_visited0.
      intuition congruence.
    + intros t [<-|Hin]; auto.
    + intros t stg [Hin|[[= <- <-]|[]]]%in_app_or; [right; eauto | now left].
Qed.

Lemma invariant_finish (st : RunState) (i : nat) (task : PageTask)
    (stg : stage) (self : CrawlSession) (result : option FetchResult) :
  crawl_invariant cfg st ->
  tasks st !! i = Some (task, stg) ->
  steady (session st) self ->
  crawl_invariant cfg (finish urljoin env st i task self result).
Proof.
  intros Hinv Hi Hs. pose proof Hinv as
    [inv_config0 inv_domains0 inv_nodup0 inv_visited0 inv_queue0
     inv_scheduled0 inv_tasks0 inv_fetches0 inv_registry0].
  assert (Hdel : forall t stg', In (t, stg') (delete i (tasks st)) ->
                                In t (scheduled (events (session st)))).
  { intros t stg' Hin%In_list_delete. eauto. }
  unfold finish. destruct result as [r|]; [|now apply (invariant_steady st)].
  unfold process_result.
  destruct (_extract_pdfs urljoin r) as [pdfs|]; [|now apply (invariant_steady st)].
  apply (invariant_steady st); auto.
  - eapply steady_trans; [exact Hs | apply fold_register_steady].
  - intros t [Hin|Hin]%in_app_or; [auto|].
    apply (new_tasks_ok urljoin cfg
             (fold_left (register env r) pdfs self) task r t);
      [|eauto using In_list_lookup|exact Hin].
    pose proof (fold_register_steady env r pdfs self) as (C1&_).
    destruct Hs as (C2&_). congruence.
Qed.

Lemma invariant_resume (st st' : RunState) (i : nat) :
  crawl_invariant cfg st -> resume urljoin env st i = Some st' ->
  crawl_invariant cfg st'.
Proof.
  intros Hinv. pose proof Hinv as
    [inv_config0 inv_domains0 inv_nodup0 inv_visited0 inv_queue0
     inv_scheduled0 inv_tasks0 inv_fetches0 inv_registry0].
  unfold resume. destruct (tasks st !! i) as [[task stg]|] eqn:Hi; [|discriminate].
  assert (Hsched : In task (scheduled (events (session st)))).
  { eauto using In_list_lookup. }
  assert (Hurl : In (task_url task) (scheduled_urls (events (session st)))).
  { unfold scheduled_urls. now apply in_map. }
  assert (Hdel : forall t stg', In (t, stg') (delete i (tasks st)) ->
                                In t (scheduled (events (session st)))).
  { intros t stg' Hin%In_list_delete. eauto. }
  assert (Hins : forall stg0 t stg', In (t, stg') (<[i:=(task, stg0)]> (tasks st)) ->
                                     In t (scheduled (events (session st)))).
  { intros stg0 t stg' [[= -> ->]|Hin]%In_list_insert; eauto. }
  destruct stg as [| |result].
  - pose proof (is_allowed_steady env urljoin (session st) (task_url task)) as Hs.
    destruct (_is_allowed urljoin env (session st) (task_url task)) as [allowed self1].
    simpl in Hs. destruct allowed as [[|]|]; intros [= <-];
      apply (invariant_steady st); eauto.
  - pose proof (fetch_static_steady env (session st) (task_url task) Hurl) as Hs.
    destruct (fetch_static env (session st) (task_url task)) as [result self1].
    simpl in Hs. destruct (static_suffices result).
    + intros [= <-]. now apply (invariant_finish st i task AwaitStatic).
    + destruct (playwright_fetcher self1); intros [= <-].
      * apply (invariant_steady st); eauto.
      * now apply (invariant_finish st i task AwaitStatic).
  - pose proof (fetch_dynamic_steady env (session st) (task_url task) result Hurl)
      as Hs.
    destruct (fetch_dynamic env (session st) (task_url task) result)
      as [result' self1].
    simpl in Hs. intros [= <-].
    now apply (invariant_finish st i task (AwaitPlaywright result)).
Qed.

Lemma reachable_invariant (st : RunState) :
  reachable urljoin env cfg playwright st -> crawl_invariant cfg st.
Proof.
  induction 1 as [st Hinit|st m st' _ IH Hstep]; [now apply invariant_init|].
  destruct m as [|i]; simpl in Hstep.
  - now apply (invariant_main_loop st).
  - now apply (invariant_resume st st' i).
Qed.

End Invariant.

(** ** The frontier scheduler *)

Section Scheduler.
Variable urljoin : string -> string -> option string.
Variable env : Env.






(** The three stages of a task make up [_process]: a task in flight alone,
    resumed until it is done, leaves the session and the queue that
    [_process] leaves. *)
Lemma resume_until_done_process (self : CrawlSession) (task : PageTask)
    (q : list PageTask) :
  resume_until_done urljoin env 3 (mkRunState self q [(task, Created)])
  = Some (let '(self', q') := _process urljoin env self task q in
          mkRunState self' q' []).
Proof.
  unfold _process, _fetch_page. simpl. unfold resume at 1. simpl.
  destruct (_is_allowed urljoin env self (task_url task)) as [allowed self1].
  destruct allowed as [[|]|]; simpl; [|reflexivity|reflexivity].
  unfold resume at 1. simpl.
  destruct (fetch_static env self1 (task_url task)) as [result self2].
  destruct (static_suffices result) eqn:Hs.
  - unfold finish. destruct result as [r|]; [|discriminate]. simpl.
    destruct (process_result urljoin env self2 task r q) as [self3 q3].
    reflexivity.
  - destruct (playwright_fetcher self2).
    + simpl. unfold resume at 1. simpl.
      destruct (fetch_dynamic env self2 (task_url task) result) as [result' self3].
      unfold finish. destruct result' as [r|]; simpl.
      * destruct (process_result urljoin env self3 task r q) as [self4 q4].
        reflexivity.
      * reflexivity.
    + unfold finish. destruct result as [r|]; simpl.
      * destruct (process_result urljoin env self2 task r q) as [self3 q3].
        reflexivity.
      * reflexivity.
Qed.

(** A visited link is not appended. *)
Lemma new_tasks_not_visited (self : CrawlSession) (task : PageTask)
    (result : FetchResult) (link : string) :
  link ∈ visited self ->
  ~ In link (map task_url (new_tasks urljoin self task result)).
Proof.
  intros Hv (t & <- & Hin)%in_map_iff.
  now apply new_tasks_spec in Hin as (_&_&_&Hn).
Qed.

(** A task whose URL is visited is taken off the queue and dropped. *)
Lemma main_loop_skips_visited (st : RunState) (task : PageTask)
    (rest : list PageTask) :
  queue st = task :: rest ->
  Z.of_nat (length (tasks st)) < concurrency (config (session st)) ->
  task_url task ∈ visited (session st) ->
  main_loop st = Some (mkRunState (session st) rest (tasks st)).
Proof.
  intros Hq Hc Hv. unfold main_loop. rewrite Hq.
  apply Z.ltb_lt in Hc. rewrite Hc. now rewrite bool_decide_eq_true_2.
Qed.

Lemma reachable_steps (cfg : CrawlConfig) (playwright : bool)
    (st st' : RunState) :
  reachable urljoin env cfg playwright st ->
  crawl_steps urljoin env st st' ->
  reachable urljoin env cfg playwright st'.
Proof.
  intros Hr Hs. induction Hs as [st|st m st1 st2 Hstep _ IH]; [assumption|].
  apply IH. now apply (reachable_step urljoin env cfg playwright st m).
Qed.


Lemma steps_moves (st st' : RunState) :
  crawl_steps urljoin env st st' ->
  exists ms, moves urljoin env ms st = Some st'.
Proof.
  induction 1 as [st|st m st1 st2 Hstep _ [ms IH]].
  - now exists [].
  - exists (m :: ms). simpl. now rewrite Hstep.
Qed.

Lemma crawl_steps_trans (st1 st2 st3 : RunState) :
  crawl_steps urljoin env st1 st2 -> crawl_steps urljoin env st2 st3 ->
  crawl_steps urljoin env st1 st3.
Proof.
  induction 1 as [|st m sta stb Hstep _ IH]; [auto|].
  intros H. eapply crawl_steps_step; eauto.
Qed.

(** [run] makes moves of the crawl. *)
Lemma run_steps (fuel : nat) (st st' : RunState) (docs : list PDFDocument) :
  run urljoin env fuel st = Some (docs, st') ->
  crawl_steps urljoin env st st' /\ finished st' = true /\ docs = run_result st'.
Proof.
  revert st. induction fuel as [|fuel IH]; intros st; simpl.
  - destruct (finished st) eqn:Hf; [|discriminate].
    intros [= <- <-]. repeat split; [constructor | assumption].
  - destruct (finished st) eqn:Hf.
    + intros [= <- <-]. repeat split; [constructor | assumption].
    + destruct (step urljoin env (next_move st) st) as [st1|] eqn:Hs;
        [|discriminate].
      intros (H1&H2&H3)%IH. repeat split; try assumption.
      now apply (crawl_steps_step urljoin env st (next_move st) st1).
Qed.

(** The state in which [crawl] ends is a state of the crawl. *)
Lemma crawl_reachable (cfg : CrawlConfig) (playwright : bool) (fuel : nat)
    (docs : list PDFDocument) (st : RunState) :
  crawl urljoin env cfg playwright fuel = Some (docs, st) ->
  reachable urljoin env cfg playwright st
  /\ finished st = true /\ docs = run_result st.
Proof.
  unfold crawl. destruct (run_init env cfg playwright) as [st0|] eqn:Hi;
    [|discriminate].
  intros (Hs & Hf & Hd)%run_steps. split; [|auto].
  apply (reachable_steps cfg playwright st0); [now constructor | assumption].
Qed.

End Scheduler.

(** In every state of a crawl: no URL is handed to the event loop twice,
    the visited set is the set of the URLs handed over, each the seed as
    configured or free of a fragment, and every page fetch follows the
    creation of the task for its URL. *)
Lemma scheduler_creates_one_task_per_url
    (urljoin : string -> string -> option string)
    (env : Env) (cfg : CrawlConfig) (playwright : bool) (st : RunState) :
  reachable urljoin env cfg playwright st ->
  NoDup (scheduled_urls (events (session st)))
  /\ (forall u, u ∈ visited (session st)
                <-> In u (scheduled_urls (events (session st))))
  /\ (forall u, u ∈ visited (session st) ->
                u = cfg_url cfg \/ Py.contains "#" u = false)
  /\ fetches_follow_creation (events (session st)).
Proof.
  intros [_ _ Hnd Hv _ Hs _ Hf _]%reachable_invariant.
  split; [assumption|]. split; [assumption|]. split; [|assumption].
  intros u (t & <- & Hin)%Hv%in_map_iff.
  now apply Hs.
Qed.

(** C3 (the code departs from the claim): the seed goes into the visited
    set as configured.  With the seed [http://example.com/#top] and a page
    that links to [/], the crawl hands [http://example.com/#top] and
    [http://example.com/] to the event loop and fetches both, though they
    are one URL once the fragment is stripped; the visited set holds the
    seed with its fragment. *)
Theorem run_fetches_fragment_seed_twice :
  exists docs st,
    crawl Url.urljoin Ex.env_home Ex.config_fragment true 20 = Some (docs, st)
    /\ events (session st)
       = [HttpGet "http://example.com/";
          CreateTask (mkPageTask "http://example.com/" 1);
          HttpGet "http://example.com/#top";
          RobotsRead "http://example.com";
          CreateTask (mkPageTask "http://example.com/#top" 0);
          Storage (MakeDir ["downloads"])]
    /\ elements (visited (session st))
       = ["http://example.com/#top"; "http://example.com/"]
    /\ _normalize "http://example.com/#top" = Some "http://example.com/"
    /\ _normalize "http://example.com/" = Some "http://example.com/".
Proof.
  eexists _, _. split; [vm_compute; reflexivity|].
  repeat split; vm_compute; reflexivity.
Qed.

(** ** What a move does *)



Lemma extends_weaken (P Q : event -> Prop) (s1 s2 : CrawlSession) :
  (forall e, P e -> Q e) -> extends P s1 s2 -> extends Q s1 s2.
Proof.
  intros H (A1&A2&A3&A4&A5&n&A6&A7). unfold extends. repeat split; auto.
  exists n. split; [assumption|]. eapply Forall_impl; eauto.
Qed.


Section Moves.
Variable urljoin : string -> string -> option string.
Variable env : Env.









End Moves.

(** ** Progress of the scheduler *)






Section Progress.
Variable urljoin : string -> string -> option string.
Variable env : Env.








End Progress.


(** The seed is handed to the event loop at depth 0 also when the depth
    limit is negative. *)
Example main_loop_negative_max_depth :
  option_map (fun st => scheduled (events (session st)))
    (run_init Ex.env_site Ex.config_negative true ≫= main_loop)
  = Some [mkPageTask "http://example.com/" 0].
Proof. vm_compute. reflexivity. Qed.





(** In that state the two links are queued, the second at distance 8: the
    main loop takes two tasks off the queue and the first of them, in
    flight, has three moves to make. *)
Example site_mid_queue :
  queue Ex.site_mid
  = [mkPageTask "http://example.com/doc.pdf" 1;
     mkPageTask "http://example.com/next" 1]
  /\ tasks Ex.site_mid = []
  /\ distance "http://example.com/next" Ex.site_mid = 8%nat.
Proof. vm_compute. repeat split; reflexivity. Qed.

Example process_result_report_page :
  snd (process_result Url.urljoin Ex.env_site Ex.session1
         (mkPageTask "http://example.com/" 0) Ex.report_page [])
  = [mkPageTask "http://example.com/doc.pdf" 1;
     mkPageTask "http://example.com/next" 1].
Proof. vm_compute. reflexivity. Qed.

(** ** The documents a crawl returns *)








Example run_result_site :
  map doc_url (run_result Ex.site_mid) = ["http://example.com/doc.pdf"]
  /\ map doc_url (run_result Ex.site_end) = ["http://example.com/doc.pdf"]
  /\ map context (run_result Ex.site_end) = [Some "Report"]
  /\ downloads "http://example.com/doc.pdf" (events (session Ex.site_end)) = 1%nat.
Proof. repeat split; vm_compute; reflexivity. Qed.

(** A seed that is itself a PDF: no rendering fetch, one document, filed
    with the fetched URL as its URL and as its source page. *)
Example run_pdf_seed :
  exists docs st,
    crawl Url.urljoin Ex.env_pdf Ex.config_pdf true 20 = Some (docs, st)
    /\ map (fun d => (doc_url d, source_page d, context d, filename d)) docs
       = [("http://example.com/report.pdf", "http://example.com/report.pdf",
           Some network_label, ["downloads"; "example.com"; "report.pdf"])]
    /\ map fetched_url (events (session st))
       = [None; None; None; None; None; None;
          Some "http://example.com/report.pdf"; None; None; None].
Proof.
  eexists _, _. split; [vm_compute; reflexivity|].
  split; vm_compute; reflexivity.
Qed.

(** ** The links a crawl follows *)

(** C7, against the claim as stated: the page yields two links whose
    scheme, as [urlparse] reads it, is
    [javascript] and [mailto]. *)
Lemma extract_links_yields_javascript_scheme :
  In "JAVASCRIPT://example.com/%0Aalert(1)"
     (fst (_extract_links Url.urljoin Ex.session1 Ex.scheme_page))
  /\ Url.scheme "JAVASCRIPT://example.com/%0Aalert(1)" = Some "javascript"
  /\ In "Mailto://example.com"
        (fst (_extract_links Url.urljoin Ex.session1 Ex.scheme_page))
  /\ Url.scheme "Mailto://example.com" = Some "mailto".
Proof. vm_compute. repeat split; auto. Qed.

(** C7 (as amended): in every state of a crawl, the links yielded for a
    result are pairwise distinct; each has no fragment, has the netloc of
    the start URL, and is the resolved, fragment-stripped [href] of an
    anchor of the page whose [href] starts neither with [mailto:] nor with
    [javascript:]. *)
Theorem extract_links_same_domain_once
    (urljoin : string -> string -> option string)
    (env : Env) (cfg : CrawlConfig) (playwright : bool) (st : RunState)
    (result : FetchResult) :
  reachable urljoin env cfg playwright st ->
  NoDup (fst (_extract_links urljoin (session st) result))
  /\ forall link, In link (fst (_extract_links urljoin (session st) result)) ->
       Py.contains "#" link = false
       /\ Url.netloc link = Url.netloc (cfg_url cfg)
       /\ Url.netloc link <> None
       /\ exists t, In t (anchors (content result))
                    /\ link_of urljoin (final_url result) link t.
Proof.
  intros [_ (netloc & Hn & Hdom) _ _ _ _ _ _ _]%reachable_invariant.
  destruct (extract_links_spec urljoin (session st) result) as [Hnd Hall].
  split; [assumption|]. intros link Hin.
  destruct (Hall link Hin) as (Hf & (n & Hl & Hd) & Ht).
  rewrite Hdom in Hd. apply elem_of_singleton in Hd. subst n.
  rewrite Hl, Hn. repeat split; try assumption. discriminate.
Qed.

Lemma extract_links_same_domain_once_witness :
  NoDup (fst (_extract_links Url.urljoin (session Ex.site_start) Ex.scheme_page))
  /\ forall link,
       In link (fst (_extract_links Url.urljoin (session Ex.site_start)
                       Ex.scheme_page)) ->
       Py.contains "#" link = false
       /\ Url.netloc link = Url.netloc (cfg_url Ex.config1)
       /\ Url.netloc link <> None
       /\ exists t, In t (anchors (content Ex.scheme_page))
                    /\ link_of Url.urljoin (final_url Ex.scheme_page) link t.
Proof.
  apply (extract_links_same_domain_once Url.urljoin Ex.env_down Ex.config1 true
           Ex.site_start Ex.scheme_page).
  apply reachable_init. reflexivity.
Defined.

